(** * mysqlmcp: the read-only query gateway

    A shallow embedding of the MCP server of [webus/mysqlmcp] (package
    [main]): the statement classifier [isReadOnlyQuery], the bounded
    executor [runQuery] / [runQueryForResource], the catalog router
    [readResource], the value normaliser [normalizeValue] and the deny-list
    normaliser [normalizeList].

    Go strings are byte sequences and are modelled by [string] (a sequence
    of 8-bit [ascii]); Go [int] and [int64] by [Z]; a Go slice by [slice],
    which keeps the difference between [nil] and an empty slice; the
    [database/sql] handle by a record of the answers the driver gives, and
    the calls made on it by a trace of events. *)

From Stdlib Require Import ZArith Lia Bool Ascii String List DecimalString.
From stdpp Require Import base tactics option list strings gmap.

Open Scope string_scope.
Open Scope list_scope.
Open Scope Z_scope.

(** ** Bytes and characters *)

Definition byte_val (c : ascii) : Z := Z.of_N (N_of_ascii c).

(** [utf8.RuneSelf = 0x80]: bytes below it are single-byte runes. *)
Definition RuneSelf : Z := 128.

Definition is_ascii_byte (c : ascii) : bool := byte_val c <? RuneSelf.

(** The table [asciiSpace] of package [strings]:
    ['\t', '\n', '\v', '\f', '\r', ' ']. *)
Definition asciiSpace (c : ascii) : bool :=
  let v := byte_val c in
  (v =? 9) || (v =? 10) || (v =? 11) || (v =? 12) || (v =? 13) || (v =? 32).

Definition is_upper (c : ascii) : bool :=
  (65 <=? byte_val c) && (byte_val c <=? 90).

(** [c += 'a' - 'A'] on an upper-case letter. *)
Definition lower_byte (c : ascii) : ascii :=
  if is_upper c then ascii_of_N (Z.to_N (byte_val c + 32)) else c.

(** ** Package [strings] *)

Module strings.

Fixpoint all_bytes (p : ascii -> bool) (s : string) : bool :=
  match s with
  | EmptyString => true
  | String c s' => p c && all_bytes p s'
  end.

Fixpoint map_bytes (f : ascii -> ascii) (s : string) : string :=
  match s with
  | EmptyString => EmptyString
  | String c s' => String (f c) (map_bytes f s')
  end.

(** The parts of the package that work on decoded runes and need the
    Unicode tables: they are only reached from a string that holds a byte
    [>= utf8.RuneSelf]. *)
Class Unicode : Type := {
  (** [strings.Map(unicode.ToLower, s)] *)
  map_unicode_ToLower : string -> string;
  (** [strings.TrimFunc(s, unicode.IsSpace)] *)
  TrimFunc_IsSpace : string -> string;
  (** [strings.TrimRightFunc(s, unicode.IsSpace)] *)
  TrimRightFunc_IsSpace : string -> string
}.

Section WithUnicode.
Context `{U : Unicode}.

(** [strings.ToLower]: an all-ASCII string is lower-cased byte by byte,
    any other string goes through [strings.Map]. *)
Definition ToLower (s : string) : string :=
  if all_bytes is_ascii_byte s then map_bytes lower_byte s
  else map_unicode_ToLower s.

(** Second loop of [strings.TrimSpace], on the bytes of [s[start:]] in
    reverse order: [stop] moves left over ASCII spaces. *)
Fixpoint trim_stop (rev_s : list ascii) : string :=
  match rev_s with
  | [] => EmptyString
  | c :: rest =>
      if negb (is_ascii_byte c) then
        TrimRightFunc_IsSpace (string_of_list_ascii (rev rev_s))
      else if asciiSpace c then trim_stop rest
      else string_of_list_ascii (rev rev_s)
  end.

(** First loop of [strings.TrimSpace]: [start] moves right over ASCII
    spaces. *)
Fixpoint trim_start (s : string) : string :=
  match s with
  | EmptyString => EmptyString
  | String c s' =>
      if negb (is_ascii_byte c) then TrimFunc_IsSpace s
      else if asciiSpace c then trim_start s'
      else trim_stop (rev (list_ascii_of_string s))
  end.

Definition TrimSpace (s : string) : string := trim_start s.

End WithUnicode.

(** [strings.HasPrefix(s, prefix)] *)
Fixpoint HasPrefix (s prefix : string) : bool :=
  match prefix, s with
  | EmptyString, _ => true
  | String p prefix', String c s' => Ascii.eqb p c && HasPrefix s' prefix'
  | String _ _, EmptyString => false
  end.

(** [strings.Contains(s, substr)]: [substr] starts at some index of [s]. *)
Fixpoint Contains (s substr : string) : bool :=
  HasPrefix s substr ||
  match s with
  | EmptyString => false
  | String _ s' => Contains s' substr
  end.

(** [strings.TrimPrefix(s, prefix)] *)
Definition TrimPrefix (s prefix : string) : string :=
  if HasPrefix s prefix
  then String.substring (String.length prefix)
         (String.length s - String.length prefix) s
  else s.

(** [strings.Split(s, sep)] for a one-byte separator: one more part than
    there are separators. *)
Fixpoint Split_byte (s : string) (sep : ascii) : list string :=
  match s with
  | EmptyString => [EmptyString]
  | String c s' =>
      if Ascii.eqb c sep then EmptyString :: Split_byte s' sep
      else match Split_byte s' sep with
           | part :: parts => String c part :: parts
           | [] => [String c EmptyString]
           end
  end.

End strings.
Import strings.

(** ** Decimal text, as [fmt] and [time] print integers *)

Definition digits (n : Z) : string :=
  DecimalString.NilZero.string_of_uint (N.to_uint (Z.to_N n)).

Fixpoint zeros (n : nat) : string :=
  match n with
  | O => EmptyString
  | S n' => String "0" (zeros n')
  end.

(** [appendInt(b, x, width)] of package [time]: a sign for a negative [x],
    then the decimal digits of its absolute value, zero-padded on the left
    to [width]. *)
Definition appendInt (x : Z) (width : nat) : string :=
  let ds := digits (Z.abs x) in
  (if x <? 0 then "-" else "") +:+
  zeros (width - String.length ds) +:+ ds.

(** [%d] of package [fmt]. *)
Definition fmt_d (x : Z) : string := appendInt x 0.

(** ** Slices and errors *)

(** A Go slice is either [nil] or a (possibly empty) sequence of elements;
    the two encode differently ([null] and [[]] in JSON). *)
Inductive slice (A : Type) : Type :=
| nil_slice
| mk_slice (elems : list A).
Arguments nil_slice {A}.
Arguments mk_slice {A} elems.

Definition elems {A} (s : slice A) : list A :=
  match s with
  | nil_slice => []
  | mk_slice l => l
  end.

Definition len {A} (s : slice A) : nat := length (elems s).

Definition is_nil {A} (s : slice A) : bool :=
  match s with
  | nil_slice => true
  | mk_slice _ => false
  end.

(** The [error] values the program tells apart: an error carrying a message
    ([errors.New], [fmt.Errorf], whatever a driver or parser returns), and
    the JSON-RPC error built by [mcp.ResourceNotFoundError(uri)]. *)
Inductive error : Type :=
| errorString (msg : string)
| ResourceNotFoundError (uri : string).

(** [err.Error()] *)
Definition Error (e : error) : string :=
  match e with
  | errorString msg => msg
  | ResourceNotFoundError _ => "Resource not found"
  end.

(** [fmt.Errorf(prefix + "%w", err)] *)
Definition Errorf_w (prefix : string) (err : error) : error :=
  errorString (prefix +:+ Error err).

(** A Go result pair [(v, err)] of which exactly one side is set. *)
Inductive result (A : Type) : Type :=
| Ok (v : A)
| Err (e : error).
Arguments Ok {A} v.
Arguments Err {A} e.

(** ** Package [time] *)

(** An instant (seconds and nanoseconds since the Unix epoch, with
    [0 <= nsec < 10^9]) shown in a zone [loc_offset] seconds east of UTC. *)
Record Time : Type := {
  unixSec : Z;
  nsec : Z;
  loc_offset : Z
}.

(** [t.UTC()]: the same instant with the location set to UTC. *)
Definition UTC (t : Time) : Time :=
  {| unixSec := unixSec t; nsec := nsec t; loc_offset := 0 |}.

(** The proleptic Gregorian date [(year, month, day)] of a day counted from
    1970-01-01, which is what [Time.Date] yields. *)
Definition civil_from_days (days : Z) : Z * Z * Z :=
  let z := days + 719468 in
  let era := z / 146097 in
  let doe := z - era * 146097 in
  let yoe := (doe - doe / 1460 + doe / 36524 - doe / 146096) / 365 in
  let doy := doe - (365 * yoe + yoe / 4 - yoe / 100) in
  let mp := (5 * doy + 2) / 153 in
  let d := doy - (153 * mp + 2) / 5 + 1 in
  let m := if mp <? 10 then mp + 3 else mp - 9 in
  let y := yoe + era * 400 + (if m <=? 2 then 1 else 0) in
  (y, m, d).

Fixpoint drop_zeros (rev_s : list ascii) : list ascii :=
  match rev_s with
  | c :: rest => if Ascii.eqb c "0" then drop_zeros rest else rev_s
  | [] => []
  end.

(** [appendNano] for the layout element [.999999999]: nothing for a whole
    second, else the nine digits without their trailing zeros. *)
Definition appendNano9 (nanosec : Z) : string :=
  if nanosec =? 0 then ""
  else "." +:+ string_of_list_ascii
         (rev (drop_zeros (rev (list_ascii_of_string (appendInt nanosec 9))))).

(** The zone element [Z07:00]. *)
Definition appendZone (offset : Z) : string :=
  if offset =? 0 then "Z"
  else
    let zone := Z.quot offset 60 in
    (if zone <? 0 then "-" else "+") +:+
    appendInt (Z.abs zone / 60) 2 +:+ ":" +:+ appendInt (Z.abs zone mod 60) 2.

(** [t.Format(time.RFC3339Nano)], layout
    ["2006-01-02T15:04:05.999999999Z07:00"]. *)
Definition Format_RFC3339Nano (t : Time) : string :=
  let local := unixSec t + loc_offset t in
  let '(year, month, day) := civil_from_days (local / 86400) in
  let secs := local mod 86400 in
  appendInt year 4 +:+ "-" +:+ appendInt month 2 +:+ "-" +:+ appendInt day 2 +:+
  "T" +:+ appendInt (secs / 3600) 2 +:+ ":" +:+ appendInt (secs mod 3600 / 60) 2 +:+
  ":" +:+ appendInt (secs mod 60) 2 +:+
  appendNano9 (nsec t) +:+ appendZone (loc_offset t).

(** ** Values of type [interface{}] *)

(** The dynamic values that flow through [any]: what [rows.Scan] may store
    in an [*interface{}] ([nil], [[]byte], [time.Time], [int64], [float64]
    given by its bits, [bool], [string], and any further type a driver
    produces, kept as [other_any]), and what the structured content holds
    ([int], [[]any]). *)
#[warnings="-register-all"]
Inductive any : Type :=
| nil_any
| bytes_any (b : string)
| time_any (t : Time)
| int64_any (n : Z)
| float64_any (bits : Z)
| bool_any (b : bool)
| string_any (s : string)
| int_any (n : Z)
| slice_any (l : list any)
| other_any (type_name : string) (repr : string).

Definition normalizeValue (value : any) : any :=
  match value with
  | nil_any => nil_any
  | bytes_any v => string_any v
  | time_any v => string_any (Format_RFC3339Nano (UTC v))
  | v => v
  end.

(** ** Configuration and tool types *)

Record ServerConfig : Type := {
  Name : string;
  Version : string
}.

Record MySQLConfig : Type := {
  DSN : string;
  MaxOpenConns : Z;
  MaxIdleConns : Z;
  ConnMaxLifetimeSeconds : Z;
  ConnMaxIdleTimeSeconds : Z;
  QueryTimeoutSeconds : Z;
  AllowStatementPrefixes : slice string;
  DenySubstrings : slice string;
  MaxRows : Z
}.

Record Config : Type := {
  Server : ServerConfig;
  MySQL : MySQLConfig
}.

Record QueryInput : Type := {
  Query : string
}.

(** Each row is allocated by [make([]interface{}, len(columns))], so it is
    kept as a plain list; the two outer fields are slices and may be [nil]. *)
Record QueryOutput : Type := {
  Columns : slice string;
  Rows : slice (list any);
  RowCount : Z;
  Truncated : bool
}.

(** [mcp.Content]; the program only builds [*mcp.TextContent]. *)
Inductive Content : Type :=
| TextContent (Text : string).

Record CallToolResult : Type := {
  Content_ : list Content;
  StructuredContent : option (gmap string any);
  IsError : bool
}.

(** The loops of [queryOutputToStructuredContent] append one element per
    iteration. *)
Definition queryOutputToStructuredContent (output : QueryOutput) : gmap string any :=
  let columns :=
    fold_left (fun columns col => columns ++ [string_any col])
      (elems (Columns output)) [] in
  let rows :=
    fold_left
      (fun rows row =>
         let rowValues := fold_left (fun rowValues value => rowValues ++ [value]) row [] in
         rows ++ [slice_any rowValues])
      (elems (Rows output)) [] in
  <["columns" := slice_any columns]>
    (<["rows" := slice_any rows]>
       (<["rowCount" := int_any (RowCount output)]>
          (<["truncated" := bool_any (Truncated output)]> ∅))).

(** [toolErrorResultf]; its argument is the text [fmt.Sprintf(format,
    args...)] already formatted. *)
Definition toolErrorResultf (text : string) : CallToolResult * QueryOutput :=
  let output := {| Columns := mk_slice [];
                   Rows := mk_slice [];
                   RowCount := 0;
                   Truncated := false |} in
  ({| Content_ := [TextContent text];
      StructuredContent := Some (queryOutputToStructuredContent output);
      IsError := true |},
   output).

(** ** Admission *)

Section Admission.
Context `{U : Unicode}.

Definition normalizeList (values : slice string) : slice string :=
  mk_slice
    (fold_left
       (fun out value =>
          let trimmed := TrimSpace (ToLower value) in
          if negb (trimmed =? "")%string then out ++ [trimmed] else out)
       (elems values) []).

End Admission.

(** Package [vitess.io/vitess/go/vt/sqlparser], as far as the classifier
    looks at it. *)
Module sqlparser.

(** The dynamic type of a parsed [Statement]. [*ExplainStmt] and
    [*ExplainTab] are the types implementing the interface [Explain]; any
    other statement type (DML, DDL, administrative, ...) is an
    [OtherStatement]. *)
Inductive Statement : Type :=
| Select
| Union
| Show
| ExplainStmt
| ExplainTab
| OtherStatement (dynamic_type : string).

(** [stmt.(sqlparser.Explain)] succeeds. *)
Definition implements_Explain (stmt : Statement) : bool :=
  match stmt with
  | ExplainStmt | ExplainTab => true
  | _ => false
  end.

(** The grammar: [New(Options{})] and the method [Parse] of the parser. *)
Class Grammar : Type := {
  Parser : Type;
  New : result Parser;
  Parse : Parser -> string -> result Statement
}.

End sqlparser.

Section Classifier.
Context `{U : Unicode} `{G : sqlparser.Grammar}.

(** The loop over [denySubstrings]: [true] when it returns from inside. *)
Fixpoint deny_loop (normalized : string) (denySubstrings : list string) : bool :=
  match denySubstrings with
  | [] => false
  | fragment :: rest =>
      if negb (fragment =? "")%string && Contains normalized fragment then true
      else deny_loop normalized rest
  end.

Definition isReadOnlyQuery (query : string) (denySubstrings : slice string) : bool :=
  let normalized := TrimSpace (ToLower query) in
  if (normalized =? "")%string then false
  else if Contains normalized ";" then false
  else if deny_loop normalized (elems denySubstrings) then false
  else
    match sqlparser.New with
    | Err _ => false
    | Ok parser =>
        match sqlparser.Parse parser query with
        | Err _ => false
        | Ok stmt =>
            match stmt with
            | sqlparser.Select | sqlparser.Union | sqlparser.Show => true
            | _ => sqlparser.implements_Explain stmt
            end
        end
    end.

End Classifier.

(** ** Package [database/sql] *)

Module sql.

(** The current row of an open result set: the driver's values
    ([rs.lastcols]) and the error, if any, that [Scan] reports before it
    looks at them (the rows were closed under it). *)
Record DriverRow : Type := {
  lastcols : list any;
  scan_failure : option error
}.

(** What a statement answers: the outcome of [rows.Columns()], the rows
    [rows.Next()] steps through, and the error that ended the iteration
    ([None] for a clean end of the result set). *)
Record Rows : Type := {
  Columns_ : result (slice string);
  pending : list DriverRow;
  final_err : option error
}.

(** The handle [*sql.DB], given by what the server behind it answers:
    [None] is a [nil] error. *)
Record DB : Type := {
  Conn : option error;
  BeginTx : option error;
  QueryContext : string -> result Rows;
  Commit : option error
}.

(** [rows.Scan(dest...)] with [ndest] destinations of type [*interface{}]:
    the count must be that of the driver's columns, and each value is then
    assigned as it is. *)
Definition Scan (ndest : nat) (r : DriverRow) : result (list any) :=
  match scan_failure r with
  | Some err => Err err
  | None =>
      if Nat.eqb ndest (length (lastcols r)) then Ok (lastcols r)
      else Err (errorString
                  ("sql: expected " +:+ fmt_d (Z.of_nat (length (lastcols r))) +:+
                   " destination arguments in Scan, not " +:+ fmt_d (Z.of_nat ndest)))
  end.

(** The calls made on the context, the handle, the connection, the
    transaction and the rows, in the order they are made. *)
Inductive Event : Type :=
| WithTimeout (timeout : Z)
| Cancel
| DB_Conn
| Conn_Close
| Conn_BeginTx (ReadOnly : bool)
| Tx_QueryContext (query : string)
| Tx_Rollback
| Tx_Commit
| Rows_Columns
| Rows_Next
| Rows_Scan (ndest : nat)
| Rows_Err
| Rows_Close.

End sql.

(** ** Effects: a state monad over the trace of calls *)

Definition M (A : Type) : Type := list sql.Event -> A * list sql.Event.

Definition ret {A} (a : A) : M A := fun tr => (a, tr).

Definition bind {A B} (m : M A) (k : A -> M B) : M B :=
  fun tr => let '(a, tr') := m tr in k a tr'.

Definition emit (e : sql.Event) : M unit := fun tr => (tt, tr ++ [e]).

(** [defer cleanup()] registered before [body]: [cleanup] runs when [body]
    returns, so deferred calls run last registered first. *)
Definition defer {A} (cleanup : M unit) (body : M A) : M A :=
  bind body (fun a => bind cleanup (fun _ => ret a)).

Declare Scope go_scope.
Delimit Scope go_scope with go.
Notation "x <- m ;; k" := (bind m (fun x => k))
  (at level 100, m at next level, k at level 200, right associativity) : go_scope.
Notation "m ;; k" := (bind m (fun _ => k))
  (at level 100, k at level 200, right associativity) : go_scope.
Open Scope go_scope.

(** ** The bounded executor *)

Record queryHandler : Type := {
  db : sql.DB;
  config : Config;
  denySubstrings : slice string
}.

(** 64-bit two's complement wrap-around. *)
Definition wrap64 (z : Z) : Z := (z + 2 ^ 63) mod 2 ^ 64 - 2 ^ 63.

(** [time.Second], in nanoseconds. *)
Definition Second : Z := 1000000000.

(** [timeout] of [runQuery]: the product is an [int64] [time.Duration]. *)
Definition timeout (cfg : Config) : Z :=
  let timeout := wrap64 (QueryTimeoutSeconds (MySQL cfg) * Second) in
  if timeout <=? 0 then 30 * Second else timeout.

(** [maxRows] of [runQuery]. *)
Definition maxRows (cfg : Config) : Z :=
  let maxRows := MaxRows (MySQL cfg) in
  if maxRows <=? 0 then 1000 else maxRows.

(** [append(results, values)] *)
Definition append {A} (s : slice A) (x : A) : slice A := mk_slice (elems s ++ [x]).

(** How the row loop is left: by the [return] on a failed [Scan], or past
    its end with the local variables and the error [rows.Err()] will give
    (set by the [Next] that returned false, nil after a [break]). *)
Inductive LoopExit : Type :=
| ScanFailed (err : error)
| LoopDone (results : slice (list any)) (rowCount : Z) (truncated : bool)
    (lasterr : option error).

(** The loop [for rows.Next() { ... }], the same text in [runQuery] and
    [runQueryForResource]. [ncols] is [len(columns)]. *)
Fixpoint row_loop (ncols : nat) (maxRows : Z) (final_err : option error)
    (pending : list sql.DriverRow) (results : slice (list any)) (rowCount : Z)
    : M LoopExit :=
  emit sql.Rows_Next ;;
  match pending with
  | [] => ret (LoopDone results rowCount false final_err)
  | r :: pending' =>
      if rowCount >=? maxRows then ret (LoopDone results rowCount true None)
      else
        emit (sql.Rows_Scan ncols) ;;
        match sql.Scan ncols r with
        | Err err => ret (ScanFailed err)
        | Ok values =>
            row_loop ncols maxRows final_err pending'
              (append results (map normalizeValue values)) (rowCount + 1)
        end
  end.

(** [result, output := toolErrorResultf(...); return result, output, nil] *)
Definition tool_error (text : string) : M (CallToolResult * QueryOutput * option error) :=
  let '(result, output) := toolErrorResultf text in
  ret (result, output, None).

(** The last lines of both executors: the output record with its two
    [nil] checks. *)
Definition make_output (columns : slice string) (results : slice (list any))
    (rowCount : Z) (truncated : bool) : QueryOutput :=
  let output := {| Columns := columns; Rows := results;
                   RowCount := rowCount; Truncated := truncated |} in
  let output := if is_nil (Columns output)
                then {| Columns := mk_slice []; Rows := Rows output;
                        RowCount := RowCount output; Truncated := Truncated output |}
                else output in
  if is_nil (Rows output)
  then {| Columns := Columns output; Rows := mk_slice [];
          RowCount := RowCount output; Truncated := Truncated output |}
  else output.

Section Executor.
Context `{U : Unicode} `{G : sqlparser.Grammar}.

Definition runQuery (h : queryHandler) (input : QueryInput)
    : M (CallToolResult * QueryOutput * option error) :=
  if negb (isReadOnlyQuery (Query input) (denySubstrings h)) then
    tool_error "only read-only queries are allowed"
  else
    emit (sql.WithTimeout (timeout (config h))) ;;
    defer (emit sql.Cancel) (
    emit sql.DB_Conn ;;
    match sql.Conn (db h) with
    | Some err => tool_error ("failed to acquire connection: " +:+ Error err)
    | None =>
    defer (emit sql.Conn_Close) (
    emit (sql.Conn_BeginTx true) ;;
    match sql.BeginTx (db h) with
    | Some err => tool_error ("failed to start read-only transaction: " +:+ Error err)
    | None =>
    emit (sql.Tx_QueryContext (Query input)) ;;
    match sql.QueryContext (db h) (Query input) with
    | Err err =>
        emit sql.Tx_Rollback ;;
        tool_error ("query failed: " +:+ Error err)
    | Ok rows =>
    defer (emit sql.Rows_Close) (
    emit sql.Rows_Columns ;;
    match sql.Columns_ rows with
    | Err err =>
        emit sql.Tx_Rollback ;;
        tool_error ("failed to fetch columns: " +:+ Error err)
    | Ok columns =>
    let columns := if is_nil columns then mk_slice [] else columns in
    exit <- row_loop (len columns) (maxRows (config h)) (sql.final_err rows)
              (sql.pending rows) (mk_slice []) 0 ;;
    match exit with
    | ScanFailed err =>
        emit sql.Tx_Rollback ;;
        tool_error ("failed to read row: " +:+ Error err)
    | LoopDone results rowCount truncated lasterr =>
    emit sql.Rows_Err ;;
    match lasterr with
    | Some err =>
        emit sql.Tx_Rollback ;;
        tool_error ("row iteration failed: " +:+ Error err)
    | None =>
    emit sql.Tx_Commit ;;
    match sql.Commit (db h) with
    | Some err => tool_error ("failed to finish transaction: " +:+ Error err)
    | None =>
        let output := make_output columns results rowCount truncated in
        ret ({| Content_ := [TextContent "ok"];
                StructuredContent := Some (queryOutputToStructuredContent output);
                IsError := false |},
             output, None)
    end end end end) end end) end).

(** [QueryOutput{}] *)
Definition zero_QueryOutput : QueryOutput :=
  {| Columns := nil_slice; Rows := nil_slice; RowCount := 0; Truncated := false |}.

Definition runQueryForResource (h : queryHandler) (query : string)
    : M (QueryOutput * option error) :=
  if negb (isReadOnlyQuery query (denySubstrings h)) then
    ret (zero_QueryOutput, Some (errorString "only read-only queries are allowed"))
  else
    emit (sql.WithTimeout (timeout (config h))) ;;
    defer (emit sql.Cancel) (
    emit sql.DB_Conn ;;
    match sql.Conn (db h) with
    | Some err =>
        ret (zero_QueryOutput, Some (Errorf_w "failed to acquire connection: " err))
    | None =>
    defer (emit sql.Conn_Close) (
    emit (sql.Conn_BeginTx true) ;;
    match sql.BeginTx (db h) with
    | Some err =>
        ret (zero_QueryOutput,
             Some (Errorf_w "failed to start read-only transaction: " err))
    | None =>
    emit (sql.Tx_QueryContext query) ;;
    match sql.QueryContext (db h) query with
    | Err err =>
        emit sql.Tx_Rollback ;;
        ret (zero_QueryOutput, Some (Errorf_w "query failed: " err))
    | Ok rows =>
    defer (emit sql.Rows_Close) (
    emit sql.Rows_Columns ;;
    match sql.Columns_ rows with
    | Err err =>
        emit sql.Tx_Rollback ;;
        ret (zero_QueryOutput, Some (Errorf_w "failed to fetch columns: " err))
    | Ok columns =>
    let columns := if is_nil columns then mk_slice [] else columns in
    exit <- row_loop (len columns) (maxRows (config h)) (sql.final_err rows)
              (sql.pending rows) (mk_slice []) 0 ;;
    match exit with
    | ScanFailed err =>
        emit sql.Tx_Rollback ;;
        ret (zero_QueryOutput, Some (Errorf_w "failed to read row: " err))
    | LoopDone results rowCount truncated lasterr =>
    emit sql.Rows_Err ;;
    match lasterr with
    | Some err =>
        emit sql.Tx_Rollback ;;
        ret (zero_QueryOutput, Some (Errorf_w "row iteration failed: " err))
    | None =>
    emit sql.Tx_Commit ;;
    match sql.Commit (db h) with
    | Some err =>
        ret (zero_QueryOutput, Some (Errorf_w "failed to finish transaction: " err))
    | None => ret (make_output columns results rowCount truncated, None)
    end end end end) end end) end).

End Executor.

(** ** The catalog router *)

(** The fields of [*url.URL] the router reads. *)
Record URL : Type := {
  Scheme : string;
  Host : string;
  Path : string
}.

(** [url.Parse] of package [net/url]. *)
Class NetURL : Type := {
  url_Parse : string -> result URL
}.

(** [json.Marshal] on a [QueryOutput]. *)
Class JSON : Type := {
  json_Marshal : QueryOutput -> result string
}.

Record ResourceContents : Type := {
  URI : string;
  MIMEType : string;
  Text : string
}.

Record ReadResourceResult : Type := {
  Contents : list ResourceContents
}.

Definition ident_byte (c : ascii) : bool :=
  let v := byte_val c in
  ((65 <=? v) && (v <=? 90)) || ((97 <=? v) && (v <=? 122)) ||
  ((48 <=? v) && (v <=? 57)) || (v =? 95).

(** [mysqlIdentifierRE.MatchString], for the expression [^[A-Za-z0-9_]+$]:
    without the flag [m], [$] matches at the end of the text only. *)
Definition mysqlIdentifierRE (s : string) : bool :=
  negb (s =? "")%string && all_bytes ident_byte s.

Section Router.
Context `{U : Unicode} `{G : sqlparser.Grammar} `{N : NetURL} `{J : JSON}.

(** The [switch host] of [readResource]: the canned query, or the error
    returned from inside the switch. *)
Definition resource_query (uri host : string) (pathParts : list string) : result string :=
  if (host =? "databases")%string then
    if negb (Nat.eqb (length pathParts) 0) then Err (ResourceNotFoundError uri)
    else Ok "SHOW DATABASES"
  else if (host =? "tables")%string then
    if negb (Nat.eqb (length pathParts) 1) then Err (ResourceNotFoundError uri)
    else
      let db := nth 0 pathParts "" in
      if negb (mysqlIdentifierRE db) then Err (ResourceNotFoundError uri)
      else Ok ("SHOW TABLES FROM `" +:+ db +:+ "`")
  else if (host =? "schema")%string then
    if negb (Nat.eqb (length pathParts) 2) then Err (ResourceNotFoundError uri)
    else
      let db := nth 0 pathParts "" in
      let table := nth 1 pathParts "" in
      if negb (mysqlIdentifierRE db) || negb (mysqlIdentifierRE table)
      then Err (ResourceNotFoundError uri)
      else Ok ("DESCRIBE `" +:+ db +:+ "`.`" +:+ table +:+ "`")
  else Err (ResourceNotFoundError uri).

(** [pathParts] of [readResource]. *)
Definition path_parts (u : URL) : list string :=
  let trimmedPath := TrimPrefix (Path u) "/" in
  if negb (trimmedPath =? "")%string then Split_byte trimmedPath "/" else [].

(** The end of [readResource], from the call of [runQueryForResource] on. *)
Definition serve_query (h : queryHandler) (uri query : string) : M (result ReadResourceResult) :=
  r <- runQueryForResource h query ;;
  match r with
  | (_, Some err) => ret (Err err)
  | (out, None) =>
      match json_Marshal out with
      | Err err => ret (Err err)
      | Ok encoded =>
          ret (Ok {| Contents :=
                       [ {| URI := uri;
                            MIMEType := "application/json";
                            Text := encoded |} ] |})
      end
  end.

Definition readResource (h : queryHandler) (uri : string) : M (result ReadResourceResult) :=
  match url_Parse uri with
  | Err err => ret (Err err)
  | Ok u =>
      if negb (ToLower (Scheme u) =? "mysql")%string then
        ret (Err (ResourceNotFoundError uri))
      else
        let host := ToLower (Host u) in
        match resource_query uri host (path_parts u) with
        | Err err => ret (Err err)
        | Ok query => serve_query h uri query
        end
  end.

End Router.

(** ** Start-up *)

(** The defaults [loadConfig] fills in once the file is decoded. *)
Definition loadConfig_defaults (cfg : Config) : Config :=
  let server := Server cfg in
  let server := {| Name := if (Name server =? "")%string then "mysql-readonly" else Name server;
                   Version := if (Version server =? "")%string then "v1.0.0" else Version server |} in
  let my := MySQL cfg in
  {| Server := server;
     MySQL :=
       {| DSN := DSN my;
          MaxOpenConns := MaxOpenConns my;
          MaxIdleConns := MaxIdleConns my;
          ConnMaxLifetimeSeconds := ConnMaxLifetimeSeconds my;
          ConnMaxIdleTimeSeconds := ConnMaxIdleTimeSeconds my;
          QueryTimeoutSeconds := QueryTimeoutSeconds my;
          AllowStatementPrefixes :=
            if Nat.eqb (len (AllowStatementPrefixes my)) 0
            then mk_slice ["select"; "show"; "describe"; "explain"]
            else AllowStatementPrefixes my;
          DenySubstrings :=
            if Nat.eqb (len (DenySubstrings my)) 0
            then mk_slice [" into outfile"; " into dumpfile"; " for update";
                           " lock in share mode"]
            else DenySubstrings my;
          MaxRows := MaxRows my |} |}.



Section Startup.
Context `{U : Unicode}.

(** The handler [main] builds from the loaded configuration. *)
Definition main_handler (db : sql.DB) (cfg : Config) : queryHandler :=
  {| db := db;
     config := cfg;
     denySubstrings := normalizeList (DenySubstrings (MySQL cfg)) |}.

End Startup.

(** ** Stand-ins for running the model on examples *)

(** Without Unicode tables: the rune-level paths leave the string as it
    is. On ASCII text those paths are not taken. *)
Definition ascii_only : Unicode :=
  {| map_unicode_ToLower := fun s => s;
     TrimFunc_IsSpace := fun s => s;
     TrimRightFunc_IsSpace := fun s => s |}.

(** A grammar that looks at the leading keyword only. *)
Definition keyword_grammar : sqlparser.Grammar :=
  {| sqlparser.Parser := unit;
     sqlparser.New := Ok tt;
     sqlparser.Parse := fun _ query =>
       let q := @TrimSpace ascii_only (@ToLower ascii_only query) in
       if HasPrefix q "select " then
         if Contains q " union " then Ok sqlparser.Union else Ok sqlparser.Select
       else if HasPrefix q "show " then Ok sqlparser.Show
       else if HasPrefix q "explain " then Ok sqlparser.ExplainStmt
       else if HasPrefix q "describe " then Ok sqlparser.ExplainTab
       else if HasPrefix q "insert " then Ok (sqlparser.OtherStatement "*sqlparser.Insert")
       else if HasPrefix q "delete " then Ok (sqlparser.OtherStatement "*sqlparser.Delete")
       else Err (errorString "syntax error") |}.

Definition hex_val (c : ascii) : option Z :=
  let v := byte_val c in
  if (48 <=? v) && (v <=? 57) then Some (v - 48)
  else if (97 <=? v) && (v <=? 102) then Some (v - 87)
  else if (65 <=? v) && (v <=? 70) then Some (v - 55)
  else None.

(** Percent-decoding of a path: a [%] must be followed by two hexadecimal
    digits, as [url.Parse] requires. *)
Fixpoint unescape (fuel : nat) (s : string) : result string :=
  match fuel, s with
  | O, _ => Ok s
  | S fuel', String "%" (String a (String b s')) =>
      match hex_val a, hex_val b with
      | Some x, Some y =>
          match unescape fuel' s' with
          | Ok r => Ok (String (ascii_of_N (Z.to_N (16 * x + y))) r)
          | Err e => Err e
          end
      | _, _ => Err (errorString "invalid URL escape")
      end
  | S _, String "%" _ => Err (errorString "invalid URL escape")
  | S fuel', String c s' =>
      match unescape fuel' s' with
      | Ok r => Ok (String c r)
      | Err e => Err e
      end
  | S _, EmptyString => Ok EmptyString
  end.

Fixpoint split_at (sep : ascii) (s : string) : string * string :=
  match s with
  | EmptyString => (EmptyString, EmptyString)
  | String c s' =>
      if Ascii.eqb c sep then (EmptyString, s)
      else let '(a, b) := split_at sep s' in (String c a, b)
  end.

(** A parser for locators of the form [scheme://host/path], with the path
    percent-decoded. *)
Definition simple_url : NetURL :=
  {| url_Parse := fun uri =>
       let '(scheme, rest) := split_at ":" uri in
       if HasPrefix rest "://" then
         let '(host, path) := split_at "/" (String.substring 3 (String.length rest - 3) rest) in
         match unescape (String.length path) path with
         | Ok path => Ok {| Scheme := scheme; Host := host; Path := path |}
         | Err e => Err e
         end
       else Err (errorString "missing protocol scheme") |}.

(** An encoder that only prints the row count. *)
Definition count_json : JSON :=
  {| json_Marshal := fun out => Ok ("rowCount=" +:+ fmt_d (RowCount out)) |}.

(** A server holding the given rows under the given columns, every call
    succeeding. *)
Definition table_db (columns : slice string) (rows : list (list any)) : sql.DB :=
  {| sql.Conn := None;
     sql.BeginTx := None;
     sql.QueryContext := fun _ =>
       Ok {| sql.Columns_ := Ok columns;
             sql.pending := map (fun vs => {| sql.lastcols := vs; sql.scan_failure := None |}) rows;
             sql.final_err := None |};
     sql.Commit := None |}.

(** The same server with a commit that fails. *)
Definition failing_commit_db (columns : slice string) (rows : list (list any)) : sql.DB :=
  {| sql.Conn := None;
     sql.BeginTx := None;
     sql.QueryContext := sql.QueryContext (table_db columns rows);
     sql.Commit := Some (errorString "connection lost") |}.

Definition config_with (max_rows : Z) (deny : slice string) : Config :=
  {| Server := {| Name := "mysql-readonly"; Version := "v1.0.0" |};
     MySQL := {| DSN := "user:pass@tcp(localhost:3306)/db";
                 MaxOpenConns := 0; MaxIdleConns := 0;
                 ConnMaxLifetimeSeconds := 0; ConnMaxIdleTimeSeconds := 0;
                 QueryTimeoutSeconds := 0;
                 AllowStatementPrefixes := nil_slice;
                 DenySubstrings := deny;
                 MaxRows := max_rows |} |}.

(** ** Vocabulary of the properties *)

Section Vocabulary.
Context `{U : Unicode} `{G : sqlparser.Grammar}.

(** The statement kinds the classifier lets through: SELECT, UNION, SHOW
    and EXPLAIN (a statement implementing [sqlparser.Explain]). *)
Definition admitted_kind (stmt : sqlparser.Statement) : Prop :=
  stmt = sqlparser.Select \/ stmt = sqlparser.Union \/ stmt = sqlparser.Show \/
  sqlparser.implements_Explain stmt = true.

(** The text parses under the grammar, to the statement [stmt]. *)
Definition parses_to (query : string) (stmt : sqlparser.Statement) : Prop :=
  exists parser, sqlparser.New = Ok parser /\ sqlparser.Parse parser query = Ok stmt.

(** The text is made of ASCII white space only. *)
Definition blank (query : string) : Prop := all_bytes asciiSpace query = true.

Definition scan_ok (ncols : nat) (r : sql.DriverRow) : bool :=
  match sql.Scan ncols r with
  | Ok _ => true
  | Err _ => false
  end.

(** [columns] once a [nil] answer is replaced by the empty slice. *)
Definition declared (columns : slice string) : slice string :=
  if is_nil columns then mk_slice [] else columns.

(** The statement was admitted and started: a connection, a read-only
    transaction, the result set [rows] and its column names. *)
Definition opened (h : queryHandler) (query : string) (rows : sql.Rows)
    (columns : slice string) : Prop :=
  isReadOnlyQuery query (denySubstrings h) = true /\
  sql.Conn (db h) = None /\
  sql.BeginTx (db h) = None /\
  sql.QueryContext (db h) query = Ok rows /\
  sql.Columns_ rows = Ok columns.

(** The rows the loop takes before it stops. *)
Definition accepted (h : queryHandler) (rows : sql.Rows) : list sql.DriverRow :=
  take (Z.to_nat (maxRows (config h))) (sql.pending rows).

(** The loop went through: every accepted row was scanned, and a result
    set that ended within the limit ended without an error. *)
Definition streamed (h : queryHandler) (rows : sql.Rows) (columns : slice string) : Prop :=
  forallb (scan_ok (len (declared columns))) (accepted h rows) = true /\
  (Z.of_nat (length (sql.pending rows)) <= maxRows (config h) ->
   sql.final_err rows = None).

(** What [runQuery] stores for a driver row. *)
Definition stored (r : sql.DriverRow) : list any := map normalizeValue (sql.lastcols r).

(** The ways a call of the tool fails, each with the text it reports. *)
Inductive Failure (h : queryHandler) (query : string) : string -> Prop :=
| rejected :
    isReadOnlyQuery query (denySubstrings h) = false ->
    Failure h query "only read-only queries are allowed"
| connection_failed err :
    isReadOnlyQuery query (denySubstrings h) = true ->
    sql.Conn (db h) = Some err ->
    Failure h query ("failed to acquire connection: " +:+ Error err)
| begin_failed err :
    isReadOnlyQuery query (denySubstrings h) = true ->
    sql.Conn (db h) = None ->
    sql.BeginTx (db h) = Some err ->
    Failure h query ("failed to start read-only transaction: " +:+ Error err)
| query_failed err :
    isReadOnlyQuery query (denySubstrings h) = true ->
    sql.Conn (db h) = None ->
    sql.BeginTx (db h) = None ->
    sql.QueryContext (db h) query = Err err ->
    Failure h query ("query failed: " +:+ Error err)
| columns_failed rows err :
    isReadOnlyQuery query (denySubstrings h) = true ->
    sql.Conn (db h) = None ->
    sql.BeginTx (db h) = None ->
    sql.QueryContext (db h) query = Ok rows ->
    sql.Columns_ rows = Err err ->
    Failure h query ("failed to fetch columns: " +:+ Error err)
| scan_failed rows columns before r after err :
    opened h query rows columns ->
    sql.pending rows = before ++ r :: after ->
    forallb (scan_ok (len (declared columns))) before = true ->
    Z.of_nat (length before) < maxRows (config h) ->
    sql.Scan (len (declared columns)) r = Err err ->
    Failure h query ("failed to read row: " +:+ Error err)
| iteration_failed rows columns err :
    opened h query rows columns ->
    forallb (scan_ok (len (declared columns))) (sql.pending rows) = true ->
    Z.of_nat (length (sql.pending rows)) <= maxRows (config h) ->
    sql.final_err rows = Some err ->
    Failure h query ("row iteration failed: " +:+ Error err)
| commit_failed rows columns err :
    opened h query rows columns ->
    streamed h rows columns ->
    sql.Commit (db h) = Some err ->
    Failure h query ("failed to finish transaction: " +:+ Error err).

End Vocabulary.

(** The output every failure carries. *)
Definition empty_output : QueryOutput :=
  {| Columns := mk_slice []; Rows := mk_slice []; RowCount := 0; Truncated := false |}.

(** What the tool returns on a failure reported with [text]. *)
Definition failure_result (text : string) : CallToolResult * QueryOutput * option error :=
  (fst (toolErrorResultf text), snd (toolErrorResultf text), None).

(** The invariant of a returned result, for the row limit [limit]. *)
Definition well_formed (limit : Z) (output : QueryOutput) : Prop :=
  RowCount output = Z.of_nat (len (Rows output)) /\
  RowCount output <= limit /\
  Forall (fun row => length row = len (Columns output)) (elems (Rows output)) /\
  is_nil (Columns output) = false.

(** The entry is kept by [normalizeList]. *)
Definition nonempty (s : string) : bool := negb (s =? "")%string.

Abbreviation bytes := list_ascii_of_string.

(** The fragment starts and ends with a byte that is not ASCII white
    space, so trimming a text cannot cut into an occurrence of it. *)
Definition trim_stable (fragment : string) : bool :=
  match bytes fragment with
  | [] => false
  | c :: _ => negb (asciiSpace c)
  end &&
  match rev (bytes fragment) with
  | [] => false
  | c :: _ => negb (asciiSpace c)
  end.

Section RouterVocabulary.
Context `{U : Unicode}.

(** The shapes the router does not know: a scheme other than [mysql], a
    host other than the three catalog names, a number of path segments
    that is not the one of the host, or a segment that is not an
    identifier. *)
Definition unknown_locator (u : URL) : Prop :=
  let host := ToLower (Host u) in
  ToLower (Scheme u) <> "mysql" \/
  (host <> "databases" /\ host <> "tables" /\ host <> "schema") \/
  (host = "databases" /\ length (path_parts u) <> 0%nat) \/
  (host = "tables" /\ length (path_parts u) <> 1%nat) \/
  (host = "schema" /\ length (path_parts u) <> 2%nat) \/
  (exists segment, In segment (path_parts u) /\ mysqlIdentifierRE segment = false).

End RouterVocabulary.

(** The table of the examples, and handlers on it. *)
Definition users_columns : slice string := mk_slice ["id"; "name"].

Definition users_rows : list (list any) :=
  [[int64_any 1; bytes_any "alice"]; [int64_any 2; bytes_any "bob"]; [int64_any 3; nil_any]].

Definition users_handler (max_rows : Z) : queryHandler :=
  @main_handler ascii_only (table_db users_columns users_rows)
    (loadConfig_defaults (config_with max_rows nil_slice)).

Definition failing_commit_handler : queryHandler :=
  @main_handler ascii_only (failing_commit_db users_columns users_rows)
    (loadConfig_defaults (config_with 0 nil_slice)).

Definition users_result_set : sql.Rows :=
  {| sql.Columns_ := Ok users_columns;
     sql.pending :=
       map (fun vs => {| sql.lastcols := vs; sql.scan_failure := None |}) users_rows;
     sql.final_err := None |}.

(** ** Vocabulary of the trace properties *)

(** Tests on the calls of a trace. *)
Definition is_WithTimeout (e : sql.Event) : bool :=
  match e with sql.WithTimeout _ => true | _ => false end.
Definition is_Cancel (e : sql.Event) : bool :=
  match e with sql.Cancel => true | _ => false end.
Definition is_DB_Conn (e : sql.Event) : bool :=
  match e with sql.DB_Conn => true | _ => false end.
Definition is_Conn_Close (e : sql.Event) : bool :=
  match e with sql.Conn_Close => true | _ => false end.
Definition is_BeginTx (e : sql.Event) : bool :=
  match e with sql.Conn_BeginTx _ => true | _ => false end.
Definition is_QueryContext (e : sql.Event) : bool :=
  match e with sql.Tx_QueryContext _ => true | _ => false end.
Definition is_Rollback (e : sql.Event) : bool :=
  match e with sql.Tx_Rollback => true | _ => false end.
Definition is_Commit (e : sql.Event) : bool :=
  match e with sql.Tx_Commit => true | _ => false end.
Definition is_Next (e : sql.Event) : bool :=
  match e with sql.Rows_Next => true | _ => false end.
Definition is_Scan (e : sql.Event) : bool :=
  match e with sql.Rows_Scan _ => true | _ => false end.
Definition is_Rows_Close (e : sql.Event) : bool :=
  match e with sql.Rows_Close => true | _ => false end.

(** How many calls of a kind a trace holds. *)
Definition count (p : sql.Event -> bool) (tr : list sql.Event) : nat :=
  length (List.filter p tr).

Definition b2n (b : bool) : nat := if b then 1%nat else 0%nat.

Definition is_None {A} (o : option A) : bool :=
  match o with None => true | Some _ => false end.

Definition is_Ok {A} (r : result A) : bool :=
  match r with Ok _ => true | Err _ => false end.

Section TraceVocabulary.
Context `{U : Unicode} `{G : sqlparser.Grammar}.

(** The calls [runQuery] makes, from an empty trace. *)
Definition calls (h : queryHandler) (input : QueryInput) : list sql.Event :=
  snd (runQuery h input []).

(** The connection was acquired. *)
Definition connected (h : queryHandler) (query : string) : bool :=
  isReadOnlyQuery query (denySubstrings h) && is_None (sql.Conn (db h)).

(** The transaction was begun. *)
Definition begun (h : queryHandler) (query : string) : bool :=
  connected h query && is_None (sql.BeginTx (db h)).

(** The statement returned a result set. *)
Definition queried (h : queryHandler) (query : string) : bool :=
  begun h query && is_Ok (sql.QueryContext (db h) query).

End TraceVocabulary.

(** A value that [normalizeValue] leaves as it is: neither a byte
    sequence nor a timestamp. *)
Definition transport_safe (v : any) : Prop :=
  (forall b, v <> bytes_any b) /\ (forall t, v <> time_any t).

Section LoopVocabulary.
Context `{U : Unicode} `{G : sqlparser.Grammar}.

(** The loop of a handler on a result set, run from an empty trace: how
    it is left and the calls it makes. *)
Definition loop_run (h : queryHandler) (rows : sql.Rows) (columns : slice string)
    : LoopExit * list sql.Event :=
  row_loop (len (declared columns)) (maxRows (config h)) (sql.final_err rows)
    (sql.pending rows) (mk_slice []) 0 [].

(** The calls that follow the loop. *)
Definition after_loop (exit : LoopExit) : list sql.Event :=
  match exit with
  | ScanFailed _ => [sql.Tx_Rollback]
  | LoopDone _ _ _ (Some _) => [sql.Rows_Err; sql.Tx_Rollback]
  | LoopDone _ _ _ None => [sql.Rows_Err; sql.Tx_Commit]
  end.

End LoopVocabulary.

(** The bytes a canned query is made of: those of an identifier, the
    space, the backtick and the dot. *)
Definition statement_byte (c : ascii) : bool :=
  ident_byte c || (byte_val c =? 32) || (byte_val c =? 96) || (byte_val c =? 46).

Definition not_slash (c : ascii) : bool := negb (Ascii.eqb c "/").

Section ResolutionVocabulary.
Context `{U : Unicode} `{N : NetURL}.

(** The locator resolves to the canned statement [query]. *)
Definition resolves (uri query : string) : Prop :=
  exists u, url_Parse uri = Ok u /\ ToLower (Scheme u) = "mysql" /\
            resource_query uri (ToLower (Host u)) (path_parts u) = Ok query.

End ResolutionVocabulary.

(** ** Start-up: [main] *)


(** The surroundings of [main]: the value of [-config] once [flag.Parse]
    has run, the verb [%q] of [fmt], [sql.SqlOpen], the answer of the server
    to [db.PingContext], and how [server.Run] returns. *)
Class Process : Type := {
  flag_config : string;
  Sprintf_q : string -> string;
  sql_Open : string -> string -> result sql.DB;
  db_PingContext : sql.DB -> option error;
  server_Run : option error
}.


Section Main.
Context `{U : Unicode} `{T : TOML} `{P : Process}.





End Main.


(** ** The command-line client ([cmd/client]) *)

Module client.

(** A content item of a tool result as the client receives it: a
    [*mcp.TextContent], or an item of another type, given by the name [%T]
    prints and by what [json.MarshalIndent] makes of it. *)
Inductive Content : Type :=
| TextContent (Text : string)
| OtherContent (type_name : string) (indented : result string).

(** [*mcp.CallToolResult]; the structured content is [nil] ([None]) or a
    value given by what [json.MarshalIndent] makes of it. *)
Record CallToolResult : Type := {
  Content_ : list Content;
  StructuredContent : option (result string);
  IsError : bool
}.

(** [*mcp.CallToolParams], with the arguments as the list of the entries
    of the map. *)
Record CallToolParams : Type := {
  Name : string;
  Arguments : list (string * string)
}.

(** The interface [mcpSession], given by what [CallTool] answers. *)
Record mcpSession : Type := {
  CallTool : CallToolParams -> result CallToolResult
}.

(** What [run] is given: the value of [-query] after [fs.Parse(args)], or
    its error, and the answer of [client.Connect]. *)
Record Env : Type := {
  flag_query : list string -> result string;
  Connect : result mcpSession
}.

(** The calls [run] makes on the client, the session and the logger. *)
Inductive Event : Type :=
| Connect_call
| CallTool_call (params : CallToolParams)
| Close_call
| LoggerPrint (text : string).

(** The loop of the failure branch: the first text content decides. *)
Fixpoint first_text (content : list Content) : option string :=
  match content with
  | [] => None
  | TextContent text :: _ => Some text
  | OtherContent _ _ :: rest => first_text rest
  end.

(** The body of the last loop of [run], for one item. *)
Definition log_content (c : Content) : Event :=
  match c with
  | TextContent text => LoggerPrint text
  | OtherContent type_name (Err _) =>
      LoggerPrint ("(unmarshalable content type " +:+ type_name +:+ ")")
  | OtherContent _ (Ok b) => LoggerPrint b
  end.

(** [run] from the answer of [CallTool] on: the error returned and what
    is logged. *)
Definition report (answer : result CallToolResult) : option error * list Event :=
  match answer with
  | Err err => (Some (Errorf_w "CallTool failed: " err), [])
  | Ok res =>
      if IsError res then
        match StructuredContent res with
        | Some (Ok b) => (Some (errorString ("tool failed: " +:+ b)), [])
        | _ =>
            match first_text (Content_ res) with
            | Some text => (Some (errorString ("tool failed: " +:+ text)), [])
            | None => (Some (errorString "tool failed"), [])
            end
        end
      else
        match StructuredContent res with
        | Some (Err err) =>
            (Some (Errorf_w "failed to marshal structured content: " err), [])
        | Some (Ok b) => (None, [LoggerPrint b])
        | None =>
            (None, fold_left (fun log c => log ++ [log_content c]) (Content_ res) [])
        end
  end.

(** [run]; the deferred [session.Close()] comes last. *)
Definition run (env : Env) (args : list string) : option error * list Event :=
  match flag_query env args with
  | Err err => (Some err, [])
  | Ok query =>
      if (query =? "")%string then (Some (errorString "-query is required"), [])
      else
        match Connect env with
        | Err err => (Some err, [Connect_call])
        | Ok session =>
            let params := {| Name := "mysql_query"; Arguments := [("query", query)] |} in
            let '(err, log) := report (CallTool session params) in
            (err, [Connect_call; CallTool_call params] ++ log ++ [Close_call])
        end
  end.

Definition is_TextContent (c : Content) : bool :=
  match c with TextContent _ => true | OtherContent _ _ => false end.

Definition is_Print (e : Event) : bool :=
  match e with LoggerPrint _ => true | _ => false end.

Definition is_Close (e : Event) : bool :=
  match e with Close_call => true | _ => false end.

Definition is_CallTool (e : Event) : bool :=
  match e with CallTool_call _ => true | _ => false end.

End client.

(** *** Stand-ins for the surroundings of the client *)

(** [fs.Parse] on the argument lists of the tests: no argument leaves the
    default, [-query] takes the next argument as its value. *)
Definition parse_query_flag (args : list string) : result string :=
  match args with
  | [] => Ok "SELECT 1"
  | [flag; value] =>
      if (flag =? "-query")%string then Ok value
      else Err (errorString ("flag provided but not defined: " +:+ flag))
  | _ => Err (errorString "flag needs an argument: -query")
  end.

(** A session whose tool refuses every call with a text behind an item of
    another type. *)
Definition refusing_session : client.mcpSession :=
  {| client.CallTool := fun _ =>
       Ok {| client.Content_ :=
               [client.OtherContent "*mcp.ImageContent" (Ok "{}");
                client.TextContent "only read-only queries are allowed";
                client.TextContent "try again"];
             client.StructuredContent := None;
             client.IsError := true |} |}.

Definition test_env (session : client.mcpSession) : client.Env :=
  {| client.flag_query := parse_query_flag;
     client.Connect := Ok session |}.


(** ** Properties *)

(** *** Package [strings] *)

Lemma HasPrefix_empty s : HasPrefix s "" = true.
Proof. destruct s; reflexivity. Qed.

Lemma Contains_empty s : Contains s "" = true.
Proof. destruct s; reflexivity. Qed.

Lemma append_cons x (a b : string) : String x a +:+ b = String x (a +:+ b).
Proof. reflexivity. Qed.

Lemma append_assoc (a b c : string) : (a +:+ b) +:+ c = a +:+ b +:+ c.
Proof.
  induction a as [|x a IH]; [reflexivity |].
  rewrite !append_cons, IH. reflexivity.
Qed.

Lemma HasPrefix_spec p : forall s,
  HasPrefix s p = true <-> exists post, bytes s = bytes p ++ post.
Proof.
  induction p as [|c p IH]; intros s.
  - rewrite HasPrefix_empty. split; [intros _; exists (bytes s); reflexivity | reflexivity].
  - destruct s as [|d s]; simpl.
    + split; [discriminate | intros [post H]; discriminate].
    + rewrite andb_true_iff, IH. split.
      * intros [Hc [post H]]. apply Ascii.eqb_eq in Hc as ->. exists post. rewrite H. reflexivity.
      * intros [post H]. injection H as -> H. split; [apply Ascii.eqb_refl | eauto].
Qed.

Lemma Contains_nil p : Contains "" p = HasPrefix "" p || false.
Proof. reflexivity. Qed.

Lemma Contains_cons d s p :
  Contains (String d s) p = HasPrefix (String d s) p || Contains s p.
Proof. reflexivity. Qed.

Lemma Contains_spec p : forall s,
  Contains s p = true <-> exists pre post, bytes s = pre ++ bytes p ++ post.
Proof.
  induction s as [|d s IH].
  - rewrite Contains_nil, orb_false_r, HasPrefix_spec. split.
    + intros [post H]. exists [], post. exact H.
    + intros (pre & post & H). simpl in H.
      destruct pre; [exists post; exact H | discriminate].
  - rewrite Contains_cons, orb_true_iff, HasPrefix_spec, IH. split.
    + intros [[post H] | (pre & post & H)].
      * exists [], post. exact H.
      * exists (d :: pre), post. simpl. rewrite H. reflexivity.
    + intros (pre & post & H). destruct pre as [|x pre].
      * left. exists post. exact H.
      * right. simpl in H. injection H as _ H. eauto.
Qed.

Lemma bytes_map_bytes f s : bytes (map_bytes f s) = map f (bytes s).
Proof. induction s as [|c s IH]; simpl; [reflexivity | rewrite IH; reflexivity]. Qed.

Lemma Contains_map_bytes f s p :
  Contains s p = true -> Contains (map_bytes f s) (map_bytes f p) = true.
Proof.
  rewrite !Contains_spec. intros (pre & post & H).
  exists (map f pre), (map f post).
  rewrite !bytes_map_bytes, H, !map_app. reflexivity.
Qed.

Lemma byte_val_bound c : 0 <= byte_val c < 256.
Proof. destruct c as [[] [] [] [] [] [] [] []]; vm_compute; split; congruence. Qed.

Lemma lower_byte_ascii c : is_ascii_byte c = true -> is_ascii_byte (lower_byte c) = true.
Proof. destruct c as [[] [] [] [] [] [] [] []]; vm_compute; congruence. Qed.

Lemma map_lower_all_ascii s :
  all_bytes is_ascii_byte s = true -> all_bytes is_ascii_byte (map_bytes lower_byte s) = true.
Proof.
  induction s as [|c s IH]; simpl; [reflexivity |].
  rewrite !andb_true_iff. intros [Hc Hs]. split; [apply lower_byte_ascii, Hc | auto].
Qed.

Lemma all_bytes_Forall p s : all_bytes p s = true <-> Forall (fun c => p c = true) (bytes s).
Proof.
  induction s as [|c s IH]; simpl.
  - split; [constructor | reflexivity].
  - rewrite andb_true_iff, IH. split.
    + intros [? ?]. constructor; auto.
    + intros H. inversion H; subst. auto.
Qed.

Example ToLower_mixed_case :
  @ToLower ascii_only "  SELECT * From T; " = "  select * from t; ".
Proof. reflexivity. Qed.

Example TrimSpace_both_ends : @TrimSpace ascii_only "  select 1 	" = "select 1".
Proof. reflexivity. Qed.

Example Split_trailing_separator : Split_byte "db/tbl/" "/" = ["db"; "tbl"; ""].
Proof. reflexivity. Qed.

Example TrimPrefix_one_slash : TrimPrefix "//db" "/" = "/db".
Proof. reflexivity. Qed.

(** *** The classifier *)

Section ClassifierFacts.
Context `{U : Unicode} `{G : sqlparser.Grammar}.

Lemma deny_loop_true normalized fragments :
  deny_loop normalized fragments = true <->
  exists fragment, In fragment fragments /\ fragment <> "" /\
                   Contains normalized fragment = true.
Proof.
  induction fragments as [|f rest IH]; simpl.
  - split; [discriminate | intros (? & [] & _)].
  - destruct (negb (f =? "")%string && Contains normalized f) eqn:E.
    + split; [intros _ | reflexivity].
      apply andb_true_iff in E as [E1 E2].
      exists f. repeat split; auto.
      apply negb_true_iff, String.eqb_neq in E1. exact E1.
    + rewrite IH. split.
      * intros (g & Hin & Hne & Hc). exists g. auto.
      * intros (g & [-> | Hin] & Hne & Hc); [| exists g; auto].
        apply String.eqb_neq in Hne. rewrite Hne, Hc in E. discriminate.
Qed.

Lemma deny_loop_false normalized fragments :
  deny_loop normalized fragments = false <->
  forall fragment, In fragment fragments -> fragment <> "" ->
                   Contains normalized fragment = false.
Proof.
  split.
  - intros H f Hin Hne. destruct (Contains normalized f) eqn:E; [| reflexivity].
    assert (deny_loop normalized fragments = true) as H'
      by (apply deny_loop_true; exists f; auto).
    congruence.
  - intros H. destruct (deny_loop normalized fragments) eqn:E; [| reflexivity].
    apply deny_loop_true in E as (f & Hin & Hne & Hc).
    rewrite (H f Hin Hne) in Hc. discriminate.
Qed.

(** Past the three lexical guards the answer is the kind test on the
    parse. *)
Lemma isReadOnlyQuery_true_inv query deny :
  isReadOnlyQuery query deny = true ->
  TrimSpace (ToLower query) <> "" /\
  Contains (TrimSpace (ToLower query)) ";" = false /\
  deny_loop (TrimSpace (ToLower query)) (elems deny) = false /\
  exists stmt, parses_to query stmt /\ admitted_kind stmt.
Proof.
  unfold isReadOnlyQuery, parses_to, admitted_kind.
  destruct (TrimSpace (ToLower query) =? "")%string eqn:E1; [discriminate |].
  destruct (Contains (TrimSpace (ToLower query)) ";") eqn:E2; [discriminate |].
  destruct (deny_loop (TrimSpace (ToLower query)) (elems deny)) eqn:E3; [discriminate |].
  destruct sqlparser.New as [parser | e] eqn:E4; [| discriminate].
  destruct (sqlparser.Parse parser query) as [stmt | e] eqn:E5; [| discriminate].
  intros H. apply String.eqb_neq in E1. repeat split; auto.
  exists stmt. split; [exists parser; auto |].
  destruct stmt; simpl in *; auto; discriminate.
Qed.

(** Fail closed: a text that does not parse is never admitted. *)
Lemma parse_failure_rejected query deny :
  (forall stmt, ~ parses_to query stmt) -> isReadOnlyQuery query deny = false.
Proof.
  intros Hfail. destruct (isReadOnlyQuery query deny) eqn:E; [| reflexivity].
  apply isReadOnlyQuery_true_inv in E as (_ & _ & _ & stmt & Hp & _).
  destruct (Hfail stmt Hp).
Qed.

(** C1: a text that is non-empty once normalised, holds no [;] and no
    configured deny substring is admitted exactly when it parses to a
    SELECT, UNION, SHOW or EXPLAIN statement; a text that does not parse is
    not admitted. *)
Theorem admission_iff_read_only_kind query deny :
  TrimSpace (ToLower query) <> "" ->
  Contains (TrimSpace (ToLower query)) ";" = false ->
  (forall fragment, In fragment (elems deny) -> fragment <> "" ->
                    Contains (TrimSpace (ToLower query)) fragment = false) ->
  (isReadOnlyQuery query deny = true <->
   exists stmt, parses_to query stmt /\ admitted_kind stmt) /\
  ((forall stmt, ~ parses_to query stmt) -> isReadOnlyQuery query deny = false).
Proof.
  intros Hne Hsemi Hdeny. split; [| apply parse_failure_rejected].
  split.
  - intros H. apply isReadOnlyQuery_true_inv in H. tauto.
  - intros (stmt & (parser & HN & HP) & Hk).
    unfold isReadOnlyQuery.
    apply String.eqb_neq in Hne. rewrite Hne, Hsemi.
    apply deny_loop_false in Hdeny. rewrite Hdeny, HN, HP.
    destruct Hk as [-> | [-> | [-> | Hk]]]; try reflexivity.
    destruct stmt; simpl in *; auto.
Qed.

Lemma asciiSpace_ascii c : asciiSpace c = true -> is_ascii_byte c = true.
Proof.
  unfold asciiSpace, is_ascii_byte, RuneSelf. intros H.
  repeat (apply orb_true_iff in H as [H | H]); apply Z.eqb_eq in H; rewrite H; reflexivity.
Qed.

Lemma asciiSpace_lower c : asciiSpace c = true -> lower_byte c = c.
Proof.
  unfold asciiSpace, lower_byte, is_upper. intros H.
  repeat (apply orb_true_iff in H as [H | H]); apply Z.eqb_eq in H; rewrite H; reflexivity.
Qed.

Lemma blank_all_ascii s : blank s -> all_bytes is_ascii_byte s = true.
Proof.
  unfold blank. induction s as [|c s IH]; simpl; [reflexivity |].
  intros H. apply andb_true_iff in H as [Hc Hs].
  rewrite (asciiSpace_ascii c Hc). auto.
Qed.

Lemma blank_map_lower s : blank s -> map_bytes lower_byte s = s.
Proof.
  unfold blank. induction s as [|c s IH]; simpl; [reflexivity |].
  intros H. apply andb_true_iff in H as [Hc Hs].
  rewrite (asciiSpace_lower c Hc), IH; auto.
Qed.

Lemma blank_trim_start s : blank s -> trim_start s = "".
Proof.
  unfold blank. induction s as [|c s IH]; simpl; [reflexivity |].
  intros H. apply andb_true_iff in H as [Hc Hs].
  rewrite (asciiSpace_ascii c Hc), Hc. simpl. auto.
Qed.

(** White space only normalises to the empty text. *)
Lemma blank_normalized query : blank query -> TrimSpace (ToLower query) = "".
Proof.
  intros H. unfold TrimSpace, ToLower.
  rewrite (blank_all_ascii _ H), (blank_map_lower _ H).
  apply blank_trim_start, H.
Qed.

(** C2: a text whose normalised form holds a [;], or is empty, is rejected,
    whatever it parses to; so is a text of white space only. *)
Theorem semicolon_or_empty_rejected query deny :
  Contains (TrimSpace (ToLower query)) ";" = true \/
  TrimSpace (ToLower query) = "" \/
  blank query ->
  isReadOnlyQuery query deny = false.
Proof.
  intros H. unfold isReadOnlyQuery.
  destruct H as [H | [H | H]].
  - rewrite H. destruct (_ =? _)%string; reflexivity.
  - rewrite H. reflexivity.
  - rewrite (blank_normalized _ H). reflexivity.
Qed.

(** A hit of the deny loop rejects the text. *)
Lemma deny_loop_rejects query deny :
  deny_loop (TrimSpace (ToLower query)) (elems deny) = true ->
  isReadOnlyQuery query deny = false.
Proof.
  intros Hhit. unfold isReadOnlyQuery.
  destruct (_ =? _)%string; [reflexivity |].
  destruct (Contains _ ";"); [reflexivity |].
  rewrite Hhit. reflexivity.
Qed.

(** C3: a text whose normalised form holds one of the non-empty deny
    substrings is rejected, whatever it parses to. *)
Theorem deny_substring_rejected query deny fragment :
  In fragment (elems deny) ->
  fragment <> "" ->
  Contains (TrimSpace (ToLower query)) fragment = true ->
  isReadOnlyQuery query deny = false.
Proof.
  intros Hin Hne Hc.
  apply deny_loop_rejects, deny_loop_true.
  exists fragment. split; [exact Hin |]. split; [exact Hne | exact Hc].
Qed.

End ClassifierFacts.

(** The cases of [TestIsReadOnlyQuery], under the keyword grammar. *)
Example test_isReadOnlyQuery :
  let deny := mk_slice [" into outfile"; " for update"] in
  map (fun query => @isReadOnlyQuery ascii_only keyword_grammar query deny)
    ["SELECT * FROM users"; "show tables"; "explain select * from users"; "   ";
     "select 1; select 2"; "insert into t values (1)";
     "select * from t for update"; "select * from t into outfile 'x'"]
  = [true; true; true; false; false; false; false; false].
Proof. reflexivity. Qed.

Lemma admission_iff_read_only_kind_witness :
  let deny := mk_slice [" into outfile"; " for update"] in
  (@isReadOnlyQuery ascii_only keyword_grammar "SELECT * FROM users" deny = true <->
   exists stmt, @parses_to keyword_grammar "SELECT * FROM users" stmt /\ admitted_kind stmt) /\
  ((forall stmt, ~ @parses_to keyword_grammar "SELECT * FROM users" stmt) ->
   @isReadOnlyQuery ascii_only keyword_grammar "SELECT * FROM users" deny = false).
Proof.
  apply (@admission_iff_read_only_kind ascii_only keyword_grammar).
  - vm_compute. discriminate.
  - reflexivity.
  - intros fragment Hin _. simpl in Hin.
    destruct Hin as [<- | [<- | []]]; reflexivity.
Defined.

Lemma semicolon_or_empty_rejected_witness :
  @sqlparser.Parse keyword_grammar tt "select 1; select 2" = Ok sqlparser.Select /\
  @isReadOnlyQuery ascii_only keyword_grammar "select 1; select 2" nil_slice = false.
Proof.
  split; [reflexivity |].
  apply (@semicolon_or_empty_rejected ascii_only keyword_grammar).
  left. reflexivity.
Defined.

Lemma deny_substring_rejected_witness :
  @sqlparser.Parse keyword_grammar tt "select * from t for update" = Ok sqlparser.Select /\
  @isReadOnlyQuery ascii_only keyword_grammar "select * from t for update"
    (mk_slice [" into outfile"; " for update"]) = false.
Proof.
  split; [reflexivity |].
  apply (@deny_substring_rejected ascii_only keyword_grammar _ _ " for update").
  - simpl. auto.
  - discriminate.
  - reflexivity.
Defined.

(** *** Value normalisation *)

Lemma date_time_then_rest (y mo d h mi s rest : string) :
  y +:+ "-" +:+ mo +:+ "-" +:+ d +:+ "T" +:+ h +:+ ":" +:+ mi +:+ ":" +:+ s +:+ rest
  = (y +:+ "-" +:+ mo +:+ "-" +:+ d +:+ "T" +:+ h +:+ ":" +:+ mi +:+ ":" +:+ s) +:+ rest.
Proof. rewrite !append_assoc. reflexivity. Qed.

(** In UTC the text ends with the nanosecond fraction and the zone [Z]. *)
Lemma Format_UTC_suffix t :
  exists date_time,
    Format_RFC3339Nano (UTC t) = date_time +:+ appendNano9 (nsec t) +:+ "Z".
Proof.
  unfold Format_RFC3339Nano.
  change (loc_offset (UTC t)) with 0.
  change (appendZone 0) with "Z".
  change (nsec (UTC t)) with (nsec t).
  destruct (civil_from_days _) as [[year month] day].
  eexists. apply date_time_then_rest.
Qed.

Lemma normalizeValue_idempotent v : normalizeValue (normalizeValue v) = normalizeValue v.
Proof. destruct v; reflexivity. Qed.

(** The case [time] of [TestNormalizeValue]:
    [time.Date(2025, 1, 2, 3, 4, 5, 6, time.UTC)]. *)
Example test_normalizeValue_time :
  normalizeValue (time_any {| unixSec := 1735787045; nsec := 6; loc_offset := 0 |})
  = string_any "2025-01-02T03:04:05.000000006Z".
Proof. reflexivity. Qed.

Example normalizeValue_time_other_zone :
  normalizeValue (time_any {| unixSec := 951782400; nsec := 500000000; loc_offset := -3600 |})
  = string_any "2000-02-29T00:00:00.5Z".
Proof. reflexivity. Qed.

(** Dates around the leap days and before the epoch. *)
Example Format_RFC3339Nano_dates :
  map (fun sec => Format_RFC3339Nano {| unixSec := sec; nsec := 0; loc_offset := 0 |})
    [0; -1; 68169600; 951782400; 951868800; 4107542400; 253402300799; -62135596800]
  = ["1970-01-01T00:00:00Z"; "1969-12-31T23:59:59Z"; "1972-02-29T00:00:00Z";
     "2000-02-29T00:00:00Z"; "2000-03-01T00:00:00Z"; "2100-03-01T00:00:00Z";
     "9999-12-31T23:59:59Z"; "0001-01-01T00:00:00Z"].
Proof. reflexivity. Qed.

Example Format_RFC3339Nano_zone :
  Format_RFC3339Nano {| unixSec := -1; nsec := 0; loc_offset := 19800 |}
  = "1970-01-01T05:29:59+05:30".
Proof. reflexivity. Qed.

(** C8: [normalizeValue] is defined on every kind of value: [nil] stays
    [nil], a byte sequence becomes the text of the same bytes, a timestamp
    becomes its RFC3339Nano text in UTC (whatever zone it came in, with the
    suffix [Z]), and a value of any other kind is returned as it is. *)
Theorem normalizeValue_by_kind :
  normalizeValue nil_any = nil_any /\
  (forall b, normalizeValue (bytes_any b) = string_any b) /\
  (forall t,
     normalizeValue (time_any t) = string_any (Format_RFC3339Nano (UTC t)) /\
     normalizeValue (time_any t) = normalizeValue (time_any (UTC t)) /\
     exists date_time,
       Format_RFC3339Nano (UTC t) = date_time +:+ appendNano9 (nsec t) +:+ "Z") /\
  (forall v, (forall b, v <> bytes_any b) -> (forall t, v <> time_any t) ->
             normalizeValue v = v) /\
  (forall v, exists w, normalizeValue v = w /\ (forall b, w <> bytes_any b) /\
                       (forall t, w <> time_any t)).
Proof.
  split; [reflexivity |].
  split; [reflexivity |].
  split.
  - intros t. split; [reflexivity |]. split; [reflexivity |]. apply Format_UTC_suffix.
  - split.
    + intros v Hb Ht. destruct v; try reflexivity.
      * destruct (Hb b eq_refl).
      * destruct (Ht t eq_refl).
    + intros v. exists (normalizeValue v). split; [reflexivity |].
      destruct v; simpl; split; intros; discriminate.
Qed.

(** *** Rejection comes before the database *)

Section RejectionFacts.
Context `{U : Unicode} `{G : sqlparser.Grammar}.

(** C9: for a text that fails admission the tool handler returns the
    rejection at once: the trace of database calls is left as it was (no
    connection, no transaction, no statement), the result carries the
    failure flag and the read-only message, and the Go error is [nil]; the
    resource path returns its error before any database call too. *)
Theorem rejected_before_database h input tr :
  isReadOnlyQuery (Query input) (denySubstrings h) = false ->
  (exists result,
     runQuery h input tr = (result, empty_output, None, tr) /\
     IsError result = true /\
     Content_ result = [TextContent "only read-only queries are allowed"]) /\
  runQueryForResource h (Query input) tr =
    (zero_QueryOutput, Some (errorString "only read-only queries are allowed"), tr).
Proof.
  intros H. unfold runQuery, runQueryForResource. rewrite H. simpl.
  split; [| reflexivity].
  eexists. split; [reflexivity |]. split; reflexivity.
Qed.

End RejectionFacts.

(** *** The bounded executor *)

Lemma Scan_Ok ncols r vs :
  sql.Scan ncols r = Ok vs -> vs = sql.lastcols r /\ length vs = ncols.
Proof.
  unfold sql.Scan. destruct (sql.scan_failure r); [discriminate |].
  destruct (Nat.eqb ncols (length (sql.lastcols r))) eqn:E; [| discriminate].
  intros [= <-]. apply Nat.eqb_eq in E. auto.
Qed.

Lemma scan_ok_Scan ncols r :
  scan_ok ncols r = true -> sql.Scan ncols r = Ok (sql.lastcols r).
Proof.
  unfold scan_ok. destruct (sql.Scan ncols r) as [vs|e] eqn:E; [| discriminate].
  intros _. apply Scan_Ok in E as [-> _]. reflexivity.
Qed.

Lemma row_loop_unfold ncols m fe pending results rowCount tr :
  row_loop ncols m fe pending results rowCount tr =
  match pending with
  | [] => (LoopDone results rowCount false fe, tr ++ [sql.Rows_Next])
  | r :: pending' =>
      if rowCount >=? m then (LoopDone results rowCount true None, tr ++ [sql.Rows_Next])
      else
        match sql.Scan ncols r with
        | Err err => (ScanFailed err, (tr ++ [sql.Rows_Next]) ++ [sql.Rows_Scan ncols])
        | Ok values =>
            row_loop ncols m fe pending'
              (append results (map normalizeValue values)) (rowCount + 1)
              ((tr ++ [sql.Rows_Next]) ++ [sql.Rows_Scan ncols])
        end
  end.
Proof.
  destruct pending as [|r pending']; [reflexivity |].
  simpl. unfold bind, emit, ret.
  destruct (rowCount >=? m); [reflexivity |].
  destruct (sql.Scan ncols r); reflexivity.
Qed.

Lemma row_loop_streams ncols m fe pending : forall l rc tr,
  rc <= m ->
  forallb (scan_ok ncols) (take (Z.to_nat (m - rc)) pending) = true ->
  fst (row_loop ncols m fe pending (mk_slice l) rc tr) =
    LoopDone (mk_slice (l ++ map stored (take (Z.to_nat (m - rc)) pending)))
             (rc + Z.of_nat (length (take (Z.to_nat (m - rc)) pending)))
             (Nat.ltb (Z.to_nat (m - rc)) (length pending))
             (if Nat.ltb (Z.to_nat (m - rc)) (length pending) then None else fe).
Proof.
  induction pending as [|r pending IH]; intros l rc tr Hle Hscan;
    rewrite row_loop_unfold.
  - rewrite take_nil. simpl. rewrite app_nil_r, Z.add_0_r.
    destruct (Z.to_nat (m - rc)); reflexivity.
  - destruct (rc >=? m) eqn:E.
    + assert (rc = m) as -> by lia. rewrite Z.sub_diag. simpl.
      rewrite app_nil_r, Z.add_0_r. reflexivity.
    + assert (Z.to_nat (m - rc) = S (Z.to_nat (m - (rc + 1)))) as Hk by lia.
      rewrite Hk in *. simpl in Hscan. apply andb_true_iff in Hscan as [Hr Hrest].
      rewrite (scan_ok_Scan _ _ Hr).
      unfold append. simpl elems. rewrite IH by (auto; lia).
      simpl. rewrite <- app_assoc. simpl.
      rewrite Nat2Z.inj_succ, <- Z.add_1_l, Z.add_assoc. reflexivity.
Qed.

Lemma row_loop_scan_error ncols m fe r after err : forall before l rc tr,
  forallb (scan_ok ncols) before = true ->
  rc + Z.of_nat (length before) < m ->
  sql.Scan ncols r = Err err ->
  fst (row_loop ncols m fe (before ++ r :: after) (mk_slice l) rc tr) = ScanFailed err.
Proof.
  induction before as [|b before IH]; intros l rc tr Hscan Hlt Herr;
    rewrite row_loop_unfold; simpl in *.
  - destruct (rc >=? m) eqn:E; [lia |]. rewrite Herr. reflexivity.
  - destruct (rc >=? m) eqn:E; [lia |].
    apply andb_true_iff in Hscan as [Hb Hrest].
    rewrite (scan_ok_Scan _ _ Hb). unfold append. simpl elems.
    apply IH; auto. lia.
Qed.

(** The loop only adds calls to the trace. *)
Lemma row_loop_trace ncols m fe pending : forall results rc tr,
  exists events, snd (row_loop ncols m fe pending results rc tr) = tr ++ events.
Proof.
  induction pending as [|r pending IH]; intros results rc tr; rewrite row_loop_unfold.
  - eexists. reflexivity.
  - destruct (rc >=? m); [eexists; reflexivity |].
    destruct (sql.Scan ncols r) as [values | err].
    + destruct (IH (append results (map normalizeValue values)) (rc + 1)
                  ((tr ++ [sql.Rows_Next]) ++ [sql.Rows_Scan ncols])) as [events ->].
      eexists. rewrite <- !app_assoc. reflexivity.
    + eexists. simpl. rewrite <- !app_assoc. reflexivity.
Qed.

(** The loop keeps the result well formed, whatever the driver answers. *)
Lemma row_loop_invariant ncols m fe pending : forall l rc tr results rowCount truncated lasterr,
  rc = Z.of_nat (length l) ->
  rc <= m ->
  Forall (fun row => length row = ncols) l ->
  fst (row_loop ncols m fe pending (mk_slice l) rc tr)
    = LoopDone results rowCount truncated lasterr ->
  rowCount = Z.of_nat (len results) /\ rowCount <= m /\
  Forall (fun row => length row = ncols) (elems results) /\
  is_nil results = false.
Proof.
  induction pending as [|r pending IH]; intros l rc tr results rowCount truncated lasterr
    Hrc Hle Hall; rewrite row_loop_unfold.
  - simpl. intros [= <- <- _ _]. auto.
  - destruct (rc >=? m) eqn:E.
    + simpl. intros [= <- <- _ _]. auto.
    + destruct (sql.Scan ncols r) as [values | err] eqn:HS; [| discriminate].
      apply Scan_Ok in HS as [-> Hlen].
      unfold append. simpl elems. apply IH.
      * rewrite length_app. simpl. lia.
      * lia.
      * apply Forall_app. split; [exact Hall |].
        constructor; [| constructor]. rewrite length_map. exact Hlen.
Qed.


Lemma tool_error_run text tr : tool_error text tr = (failure_result text, tr).
Proof. reflexivity. Qed.


Lemma fold_left_append {A B} (f : A -> B) (l : list A) : forall init,
  fold_left (fun acc x => acc ++ [f x]) l init = init ++ map f l.
Proof.
  induction l as [|x l IH]; intros init; simpl.
  - rewrite app_nil_r. reflexivity.
  - rewrite IH, <- app_assoc. reflexivity.
Qed.

Lemma fold_left_rows (l : list (list any)) : forall init,
  fold_left
    (fun rows row =>
       rows ++ [slice_any (fold_left (fun rowValues value => rowValues ++ [value]) row [])])
    l init
  = init ++ map slice_any l.
Proof.
  induction l as [|row l IH]; intros init; simpl.
  - rewrite app_nil_r. reflexivity.
  - rewrite IH, <- app_assoc, (fold_left_append (fun v => v)), map_id. reflexivity.
Qed.

(** The four fields of the structured content. *)
Lemma structured_content_fields output :
  let m := queryOutputToStructuredContent output in
  m !! "columns" = Some (slice_any (map string_any (elems (Columns output)))) /\
  m !! "rows" = Some (slice_any (map slice_any (elems (Rows output)))) /\
  m !! "rowCount" = Some (int_any (RowCount output)) /\
  m !! "truncated" = Some (bool_any (Truncated output)).
Proof.
  unfold queryOutputToStructuredContent.
  rewrite (fold_left_append string_any).
  rewrite fold_left_rows. simpl.
  repeat split; rewrite ?lookup_insert_ne by discriminate; apply lookup_insert_eq.
Qed.

Lemma first_failure {A} (p : A -> bool) (l : list A) :
  forallb p l = true \/
  exists before x after, l = before ++ x :: after /\ forallb p before = true /\ p x = false.
Proof.
  induction l as [|x l IH]; [left; reflexivity |].
  destruct (p x) eqn:Hx.
  - destruct IH as [IH | (before & y & after & -> & Hb & Hy)].
    + left. simpl. rewrite Hx, IH. reflexivity.
    + right. exists (x :: before), y, after. simpl. rewrite Hx, Hb. auto.
  - right. exists [], x, l. auto.
Qed.

Arguments toolErrorResultf : simpl never.
Arguments queryOutputToStructuredContent : simpl never.
Arguments row_loop : simpl never.

Section ExecutorFacts.
Context `{U : Unicode} `{G : sqlparser.Grammar}.

Lemma runQuery_opened h input rows columns tr :
  opened h (Query input) rows columns ->
  exists tr0,
    fst (runQuery h input tr) =
    match fst (row_loop (len (declared columns)) (maxRows (config h))
                 (sql.final_err rows) (sql.pending rows) (mk_slice []) 0 tr0) with
    | ScanFailed err => failure_result ("failed to read row: " +:+ Error err)
    | LoopDone results rowCount truncated lasterr =>
        match lasterr with
        | Some err => failure_result ("row iteration failed: " +:+ Error err)
        | None =>
            match sql.Commit (db h) with
            | Some err => failure_result ("failed to finish transaction: " +:+ Error err)
            | None =>
                let output := make_output (declared columns) results rowCount truncated in
                ({| Content_ := [TextContent "ok"];
                    StructuredContent := Some (queryOutputToStructuredContent output);
                    IsError := false |}, output, None)
            end
        end
    end.
Proof.
  intros (Hadm & Hconn & Hbegin & Hquery & Hcols).
  unfold runQuery, defer, bind, emit, ret.
  rewrite Hadm, Hconn, Hbegin, Hquery, Hcols. cbv beta iota delta [negb].
  fold (declared columns).
  match goal with
  | |- context [row_loop ?a ?b ?c ?d ?e ?f ?t] =>
      exists t; destruct (row_loop a b c d e f t) as [exit tr1]
  end.
  cbv beta iota delta [fst].
  destruct exit as [err | results rowCount truncated [err|]];
    rewrite ?tool_error_run; try reflexivity.
  destruct (sql.Commit (db h)); rewrite ?tool_error_run; reflexivity.
Qed.

Lemma maxRows_pos cfg : 0 < maxRows cfg.
Proof. unfold maxRows. destruct (MaxRows (MySQL cfg) <=? 0) eqn:E; lia. Qed.

Lemma declared_not_nil columns : is_nil (declared columns) = false.
Proof. destruct columns; reflexivity. Qed.

Lemma make_output_not_nil columns results rowCount truncated :
  is_nil columns = false -> is_nil results = false ->
  make_output columns results rowCount truncated =
  {| Columns := columns; Rows := results; RowCount := rowCount; Truncated := truncated |}.
Proof. intros Hc Hr. unfold make_output. simpl. rewrite Hc. simpl. rewrite Hr. reflexivity. Qed.

(** C4: when an admitted statement runs through, a result set of more
    than [maxRows] rows is returned as its first [maxRows] rows with
    [truncated = true], and one of [maxRows] rows or fewer is returned
    whole, with [truncated = false] and [rowCount] the number of rows;
    [maxRows] is 1000 when the configured value is zero or negative. *)
Theorem row_limit h input rows columns tr :
  opened h (Query input) rows columns ->
  streamed h rows columns ->
  sql.Commit (db h) = None ->
  let limit := maxRows (config h) in
  let total := Z.of_nat (length (sql.pending rows)) in
  exists result output,
    fst (runQuery h input tr) = (result, output, None) /\
    IsError result = false /\
    (limit < total ->
     elems (Rows output) = map stored (take (Z.to_nat limit) (sql.pending rows)) /\
     Z.of_nat (len (Rows output)) = limit /\
     RowCount output = limit /\
     Truncated output = true) /\
    (total <= limit ->
     elems (Rows output) = map stored (sql.pending rows) /\
     RowCount output = total /\
     Truncated output = false) /\
    (MaxRows (MySQL (config h)) <= 0 -> limit = 1000) /\
    (0 < MaxRows (MySQL (config h)) -> limit = MaxRows (MySQL (config h))).
Proof.
  intros Hopen [Hscan Hend] Hcommit limit total.
  destruct (runQuery_opened h input rows columns tr Hopen) as [tr0 ->].
  pose proof (maxRows_pos (config h)) as Hpos. fold limit in Hpos, Hend.
  unfold accepted in Hscan. fold limit in Hscan.
  rewrite row_loop_streams by (rewrite ?Z.sub_0_r; auto; lia).
  rewrite Z.sub_0_r. fold limit.
  set (k := Z.to_nat limit) in *.
  destruct (Nat.ltb k (length (sql.pending rows))) eqn:Hlt.
  - apply Nat.ltb_lt in Hlt. rewrite Hcommit.
    rewrite make_output_not_nil by (apply declared_not_nil || reflexivity).
    eexists _, _. split; [reflexivity |]. split; [reflexivity |].
    assert (length (take k (sql.pending rows)) = k) as Hlen
      by (rewrite length_take; lia).
    split; [| split; [| split]].
    + intros _. cbn [Rows elems RowCount Truncated app].
      unfold len. cbn [elems app]. rewrite length_map, Hlen.
      repeat split; unfold k; lia.
    + intros Hle. unfold total in Hle. lia.
    + intros H0. unfold limit, maxRows. destruct (_ <=? 0) eqn:E; lia.
    + intros H0. unfold limit, maxRows. destruct (_ <=? 0) eqn:E; lia.
  - apply Nat.ltb_ge in Hlt.
    rewrite Hend by (unfold total; lia). rewrite Hcommit.
    rewrite make_output_not_nil by (apply declared_not_nil || reflexivity).
    eexists _, _. split; [reflexivity |]. split; [reflexivity |].
    rewrite take_ge by lia.
    split; [| split; [| split]].
    + intros Hgt. unfold total in Hgt. lia.
    + intros _. cbn [Rows elems RowCount Truncated app]. repeat split.
    + intros H0. unfold limit, maxRows. destruct (_ <=? 0) eqn:E; lia.
    + intros H0. unfold limit, maxRows. destruct (_ <=? 0) eqn:E; lia.
Qed.


Ltac run_to_return :=
  unfold runQuery, runQueryForResource, defer, bind, emit, ret;
  repeat match goal with
         | H : _ = _ |- _ => rewrite H
         end;
  cbv beta iota delta [negb fst]; rewrite ?tool_error_run; try reflexivity.

Lemma runQuery_failure h input text tr :
  Failure h (Query input) text ->
  fst (runQuery h input tr) = failure_result text.
Proof.
  intros HF. destruct HF as
    [ Hadm | err Hadm Hconn | err Hadm Hconn Hbegin | err Hadm Hconn Hbegin Hquery
    | rows err Hadm Hconn Hbegin Hquery Hcols
    | rows columns before r after err Hopen Hpending Hscan Hlt Herr
    | rows columns err Hopen Hscan Hle Herr
    | rows columns err Hopen [Hscan Hend] Hcommit ].
  - run_to_return.
  - run_to_return.
  - run_to_return.
  - run_to_return.
  - run_to_return.
  - destruct (runQuery_opened h input rows columns tr Hopen) as [tr0 ->].
    rewrite Hpending, row_loop_scan_error with (err := err); auto.
  - destruct (runQuery_opened h input rows columns tr Hopen) as [tr0 ->].
    pose proof (maxRows_pos (config h)) as Hpos.
    rewrite row_loop_streams; rewrite ?Z.sub_0_r, ?take_ge by lia; auto; try lia.
    assert (Nat.ltb (Z.to_nat (maxRows (config h))) (length (sql.pending rows)) = false)
      as -> by (apply Nat.ltb_ge; lia).
    rewrite Herr. reflexivity.
  - destruct (runQuery_opened h input rows columns tr Hopen) as [tr0 ->].
    pose proof (maxRows_pos (config h)) as Hpos. unfold accepted in Hscan.
    rewrite row_loop_streams; rewrite ?Z.sub_0_r; auto; try lia.
    destruct (Nat.ltb _ _) eqn:Hlt.
    + rewrite Hcommit. reflexivity.
    + apply Nat.ltb_ge in Hlt. rewrite Hend by lia. rewrite Hcommit. reflexivity.
Qed.

(** The list of failures is complete: a call that fails in none of these
    ways is admitted, opens its result set, goes through the loop and
    commits. *)
Lemma failure_or_success h query :
  (exists text, Failure h query text) \/
  (exists rows columns,
     opened h query rows columns /\ streamed h rows columns /\ sql.Commit (db h) = None).
Proof.
  destruct (isReadOnlyQuery query (denySubstrings h)) eqn:Hadm;
    [| left; eexists; apply rejected; exact Hadm].
  destruct (sql.Conn (db h)) as [err|] eqn:Hconn;
    [left; eexists; eapply connection_failed; eauto |].
  destruct (sql.BeginTx (db h)) as [err|] eqn:Hbegin;
    [left; eexists; eapply begin_failed; eauto |].
  destruct (sql.QueryContext (db h) query) as [rows|err] eqn:Hquery;
    [| left; eexists; eapply query_failed; eauto].
  destruct (sql.Columns_ rows) as [columns|err] eqn:Hcols;
    [| left; eexists; eapply columns_failed; eauto].
  assert (opened h query rows columns) as Hopen by (repeat split; auto).
  pose proof (maxRows_pos (config h)) as Hpos.
  destruct (first_failure (scan_ok (len (declared columns))) (accepted h rows))
    as [Hall | (before & r & after & Hsplit & Hbefore & Hr)].
  - destruct (Z_le_gt_dec (Z.of_nat (length (sql.pending rows))) (maxRows (config h)))
      as [Hle | Hgt].
    + destruct (sql.final_err rows) as [err|] eqn:Hfinal.
      * left. eexists. eapply iteration_failed; eauto.
        unfold accepted in Hall. rewrite take_ge in Hall by lia. exact Hall.
      * destruct (sql.Commit (db h)) as [err|] eqn:Hcommit.
        -- left. eexists. eapply commit_failed; eauto. split; auto.
        -- right. exists rows, columns. repeat split; auto.
    + assert (streamed h rows columns) as Hstream by (split; [exact Hall | lia]).
      destruct (sql.Commit (db h)) as [err|] eqn:Hcommit.
      * left. eexists. eapply commit_failed; eauto.
      * right. exists rows, columns. auto.
  - left. unfold scan_ok in Hr.
    destruct (sql.Scan (len (declared columns)) r) as [vs | err] eqn:HS; [discriminate |].
    eexists. eapply (scan_failed h query rows columns before r
                       (after ++ drop (Z.to_nat (maxRows (config h))) (sql.pending rows)) err);
      auto.
    + rewrite <- (take_drop (Z.to_nat (maxRows (config h))) (sql.pending rows)) at 1.
      unfold accepted in Hsplit. rewrite Hsplit, <- app_assoc. reflexivity.
    + unfold accepted in Hsplit.
      assert (length (take (Z.to_nat (maxRows (config h))) (sql.pending rows))
              = length (before ++ r :: after)) as Hlen by (rewrite Hsplit; reflexivity).
      rewrite length_take, length_app in Hlen. simpl in Hlen. lia.
Qed.

(** C6: on a rejection and on every failure of the execution the tool
    returns the empty output (no columns, no rows, row count 0, not
    truncated) in the result and in its structured content, with the
    message as the text and the failure flag set; the rows read before a
    failed commit are not returned. *)
Theorem failure_shape h input text tr :
  Failure h (Query input) text ->
  exists result content,
    fst (runQuery h input tr) = (result, empty_output, None) /\
    IsError result = true /\
    Content_ result = [TextContent text] /\
    StructuredContent result = Some content /\
    content !! "columns" = Some (slice_any []) /\
    content !! "rows" = Some (slice_any []) /\
    content !! "rowCount" = Some (int_any 0) /\
    content !! "truncated" = Some (bool_any false).
Proof.
  intros HF. rewrite (runQuery_failure h input text tr HF).
  exists (fst (toolErrorResultf text)), (queryOutputToStructuredContent empty_output).
  split; [reflexivity |]. split; [reflexivity |]. split; [reflexivity |].
  split; [reflexivity |].
  exact (structured_content_fields empty_output).
Qed.


(** A call of the tool either reports a failure or returns the output
    built from a loop that ended without an error. *)
Lemma runQuery_returns h input tr :
  (exists text, fst (runQuery h input tr) = failure_result text) \/
  (exists rows columns results rowCount truncated tr0 result,
     opened h (Query input) rows columns /\
     fst (row_loop (len (declared columns)) (maxRows (config h)) (sql.final_err rows)
            (sql.pending rows) (mk_slice []) 0 tr0)
       = LoopDone results rowCount truncated None /\
     sql.Commit (db h) = None /\
     IsError result = false /\
     fst (runQuery h input tr)
       = (result, make_output (declared columns) results rowCount truncated, None)).
Proof.
  destruct (isReadOnlyQuery (Query input) (denySubstrings h)) eqn:Hadm.
  2: { left. eexists. apply runQuery_failure, rejected, Hadm. }
  destruct (sql.Conn (db h)) as [err|] eqn:Hconn.
  { left. eexists. eapply runQuery_failure, connection_failed; eauto. }
  destruct (sql.BeginTx (db h)) as [err|] eqn:Hbegin.
  { left. eexists. eapply runQuery_failure, begin_failed; eauto. }
  destruct (sql.QueryContext (db h) (Query input)) as [rows|err] eqn:Hquery.
  2: { left. eexists. eapply runQuery_failure, query_failed; eauto. }
  destruct (sql.Columns_ rows) as [columns|err] eqn:Hcols.
  2: { left. eexists. eapply runQuery_failure, columns_failed; eauto. }
  assert (opened h (Query input) rows columns) as Hopen by (repeat split; auto).
  destruct (runQuery_opened h input rows columns tr Hopen) as [tr0 Hrun].
  destruct (fst (row_loop _ _ _ _ _ _ tr0))
    as [err | results rowCount truncated [err|]] eqn:E;
    [left; eexists; exact Hrun | left; eexists; exact Hrun |].
  destruct (sql.Commit (db h)) as [err|] eqn:Hcommit;
    [left; eexists; exact Hrun |].
  right. exists rows, columns, results, rowCount, truncated, tr0.
  eexists. split; [exact Hopen |]. split; [exact E |]. split; [reflexivity |].
  split; [| exact Hrun]. reflexivity.
Qed.

(** The same for the resource path: an error, or that output. *)
Lemma runQueryForResource_returns h query tr :
  (exists err, snd (fst (runQueryForResource h query tr)) = Some err) \/
  (exists rows columns results rowCount truncated tr0,
     opened h query rows columns /\
     fst (row_loop (len (declared columns)) (maxRows (config h)) (sql.final_err rows)
            (sql.pending rows) (mk_slice []) 0 tr0)
       = LoopDone results rowCount truncated None /\
     sql.Commit (db h) = None /\
     fst (runQueryForResource h query tr)
       = (make_output (declared columns) results rowCount truncated, None)).
Proof.
  unfold runQueryForResource, defer, bind, emit, ret.
  destruct (isReadOnlyQuery query (denySubstrings h)) eqn:Hadm;
    cbv beta iota delta [negb]; [| left; eexists; reflexivity].
  destruct (sql.Conn (db h)) as [err|] eqn:Hconn; [left; eexists; reflexivity |].
  destruct (sql.BeginTx (db h)) as [err|] eqn:Hbegin; [left; eexists; reflexivity |].
  destruct (sql.QueryContext (db h) query) as [rows|err] eqn:Hquery;
    [| left; eexists; reflexivity].
  destruct (sql.Columns_ rows) as [columns|err] eqn:Hcols;
    [| left; eexists; reflexivity].
  fold (declared columns).
  match goal with
  | |- context [row_loop ?a ?b ?c ?d ?e ?f ?t] =>
      destruct (row_loop a b c d e f t) as [exit tr1] eqn:E
  end.
  destruct exit as [err | results rowCount truncated [err|]];
    [left; eexists; reflexivity | left; eexists; reflexivity |].
  destruct (sql.Commit (db h)) as [err|] eqn:Hcommit; [left; eexists; reflexivity |].
  right. exists rows, columns, results, rowCount, truncated. eexists.
  split; [repeat split; auto |]. split; [rewrite E; reflexivity |].
  split; reflexivity.
Qed.

Lemma make_output_well_formed ncols limit columns results rowCount truncated :
  is_nil columns = false ->
  len columns = ncols ->
  rowCount = Z.of_nat (len results) /\ rowCount <= limit /\
  Forall (fun row => length row = ncols) (elems results) /\
  is_nil results = false ->
  well_formed limit (make_output columns results rowCount truncated).
Proof.
  intros Hc Hn (Hcount & Hle & Hrows & Hr).
  rewrite make_output_not_nil by auto.
  unfold well_formed. cbn [Columns Rows RowCount]. rewrite Hn. auto.
Qed.

(** C7: every result returned without a failure, by the tool or by the
    resource path, has [rowCount] equal to its number of rows and at most
    [maxRows], rows as long as the column list, and a column list that is
    not [nil]. *)
Theorem returned_result_well_formed h query output :
  (exists tr result, fst (runQuery h {| Query := query |} tr) = (result, output, None) /\
                     IsError result = false) \/
  (exists tr, fst (runQueryForResource h query tr) = (output, None)) ->
  well_formed (maxRows (config h)) output /\
  is_nil (Rows output) = false /\
  exists columns,
    queryOutputToStructuredContent output !! "columns" = Some (slice_any columns).
Proof.
  pose proof (maxRows_pos (config h)) as Hpos.
  assert (forall rows columns results rowCount truncated tr0,
    fst (row_loop (len (declared columns)) (maxRows (config h)) (sql.final_err rows)
           (sql.pending rows) (mk_slice []) 0 tr0)
      = LoopDone results rowCount truncated None ->
    well_formed (maxRows (config h))
      (make_output (declared columns) results rowCount truncated) /\
    is_nil (Rows (make_output (declared columns) results rowCount truncated)) = false)
    as Hloop.
  { intros rows columns results rowCount truncated tr0 E.
    apply row_loop_invariant in E; [| reflexivity | lia | constructor].
    split; [eapply make_output_well_formed; eauto using declared_not_nil |].
    rewrite make_output_not_nil; [apply E | apply declared_not_nil | apply E]. }
  intros Hret.
  assert (well_formed (maxRows (config h)) output /\ is_nil (Rows output) = false) as HW.
  { destruct Hret as [(tr & result & Hrun & Hok) | (tr & Hrun)].
    - destruct (runQuery_returns h {| Query := query |} tr)
        as [(text & Hfail) | (rows & columns & results & rowCount & truncated & tr0 & result'
                              & _ & E & _ & _ & Hrun')].
      + rewrite Hfail in Hrun. injection Hrun as <- _. discriminate Hok.
      + rewrite Hrun' in Hrun. injection Hrun as _ <-. eapply Hloop, E.
    - destruct (runQueryForResource_returns h query tr)
        as [(err & Herr) | (rows & columns & results & rowCount & truncated & tr0
                            & _ & E & _ & Hrun')].
      + rewrite Hrun in Herr. discriminate Herr.
      + rewrite Hrun' in Hrun. injection Hrun as <-. eapply Hloop, E. }
  destruct HW as [HW Hrows]. split; [exact HW |]. split; [exact Hrows |].
  eexists. apply structured_content_fields.
Qed.

(** An admitted text does reach the database: the executor sets the
    deadline and asks for a connection. *)
Lemma admitted_reaches_database h input tr :
  isReadOnlyQuery (Query input) (denySubstrings h) = true ->
  exists events,
    snd (runQuery h input tr)
    = tr ++ sql.WithTimeout (timeout (config h)) :: sql.DB_Conn :: events.
Proof.
  intros Hadm. unfold runQuery, defer, bind, emit, ret. rewrite Hadm.
  cbv beta iota delta [negb].
  destruct (sql.Conn (db h)); rewrite ?tool_error_run;
    [eexists; cbn [snd]; rewrite <- !app_assoc; reflexivity |].
  destruct (sql.BeginTx (db h)); rewrite ?tool_error_run;
    [eexists; cbn [snd]; rewrite <- !app_assoc; reflexivity |].
  destruct (sql.QueryContext (db h) (Query input)) as [rows | err]; rewrite ?tool_error_run;
    [| eexists; cbn [snd]; rewrite <- !app_assoc; reflexivity].
  destruct (sql.Columns_ rows) as [columns | err]; rewrite ?tool_error_run;
    [| eexists; cbn [snd]; rewrite <- !app_assoc; reflexivity].
  match goal with
  | |- context [row_loop ?a ?b ?c ?d ?e ?f ?t] =>
      destruct (row_loop_trace a b c d e f t) as [events Hev];
      destruct (row_loop a b c d e f t) as [exit tr1]
  end.
  cbn [snd] in Hev. subst tr1.
  destruct exit as [err | results rowCount truncated [err|]]; rewrite ?tool_error_run;
    try (eexists; cbn [snd]; rewrite <- !app_assoc; reflexivity).
  destruct (sql.Commit (db h)); rewrite ?tool_error_run;
    eexists; cbn [snd]; rewrite <- !app_assoc; reflexivity.
Qed.

End ExecutorFacts.

(** *** The deny list *)

Section DenyListFacts.
Context `{U : Unicode} `{G : sqlparser.Grammar}.

Lemma fold_left_keep {A} (p : string -> bool) (f : A -> string) (l : list A) : forall init,
  fold_left (fun out value => if p (f value) then out ++ [f value] else out) l init
  = init ++ List.filter p (map f l).
Proof.
  induction l as [|x l IH]; intros init; simpl.
  - rewrite app_nil_r. reflexivity.
  - rewrite IH. destruct (p (f x)); [rewrite <- app_assoc |]; reflexivity.
Qed.

(** [normalizeList] lower-cases and trims every entry and keeps those that
    are not empty. *)
Lemma normalizeList_filter_map values :
  elems (normalizeList values)
  = List.filter nonempty (map (fun value => TrimSpace (ToLower value)) (elems values)).
Proof.
  exact (fold_left_keep nonempty (fun value => TrimSpace (ToLower value)) (elems values) []).
Qed.

Lemma normalizeList_no_empty values : ~ In "" (elems (normalizeList values)).
Proof.
  rewrite normalizeList_filter_map. intros H.
  apply filter_In in H as [_ H]. discriminate H.
Qed.

Lemma normalizeList_In values entry :
  In entry (elems values) -> TrimSpace (ToLower entry) <> "" ->
  In (TrimSpace (ToLower entry)) (elems (normalizeList values)).
Proof.
  intros Hin Hne. rewrite normalizeList_filter_map. apply filter_In. split.
  - apply (in_map (fun value => TrimSpace (ToLower value))), Hin.
  - unfold nonempty. apply negb_true_iff, String.eqb_neq, Hne.
Qed.

(** An entry that is empty once trimmed leaves no trace in the list. *)
Lemma normalizeList_drops_blank before entry after :
  TrimSpace (ToLower entry) = "" ->
  normalizeList (mk_slice (before ++ entry :: after))
  = normalizeList (mk_slice (before ++ after)).
Proof.
  intros Hblank.
  assert (forall values, normalizeList values = mk_slice (elems (normalizeList values))) as Hmk
    by reflexivity.
  rewrite (Hmk (mk_slice (before ++ entry :: after))), (Hmk (mk_slice (before ++ after))).
  rewrite !normalizeList_filter_map. simpl elems.
  rewrite !map_app, !List.filter_app. simpl. rewrite Hblank. reflexivity.
Qed.


Lemma trim_stop_keeps frag : forall l,
  trim_stable frag = true ->
  Forall (fun c => is_ascii_byte c = true) l ->
  (exists pre post, rev l = pre ++ bytes frag ++ post) ->
  exists pre post, bytes (trim_stop l) = pre ++ bytes frag ++ post.
Proof.
  intros l Hstable. induction l as [|c l IH]; intros Hascii (pre & post & H).
  - simpl in H. unfold trim_stable in Hstable.
    destruct (bytes frag); [discriminate Hstable |].
    destruct pre; discriminate H.
  - inversion Hascii as [|? ? Hc Hl]; subst. simpl trim_stop. rewrite Hc. simpl negb. cbv iota.
    destruct (asciiSpace c) eqn:Hsp.
    + apply IH; [exact Hl |]. simpl in H.
      destruct post as [|x post' _] using rev_ind.
      * exfalso. rewrite app_nil_r in H. unfold trim_stable in Hstable.
        apply andb_true_iff in Hstable as [_ Hlast].
        assert (rev (rev l ++ [c]) = rev (pre ++ bytes frag)) as Hr by (rewrite H; reflexivity).
        rewrite !rev_app_distr, rev_involutive in Hr. simpl in Hr.
        destruct (rev (bytes frag)) as [|y ys]; [discriminate Hlast |].
        simpl in Hr. injection Hr as <- _. rewrite Hsp in Hlast. discriminate Hlast.
      * exists pre, post'. rewrite !app_assoc in H. apply app_inj_tail in H as [H _].
        rewrite H, <- !app_assoc. reflexivity.
    + exists pre, post. rewrite list_ascii_of_string_of_list_ascii. exact H.
Qed.

Lemma trim_start_keeps frag : forall s,
  trim_stable frag = true ->
  all_bytes is_ascii_byte s = true ->
  (exists pre post, bytes s = pre ++ bytes frag ++ post) ->
  exists pre post, bytes (trim_start s) = pre ++ bytes frag ++ post.
Proof.
  intros s Hstable. induction s as [|c s IH]; intros Hascii (pre & post & H).
  - simpl in H. unfold trim_stable in Hstable.
    destruct (bytes frag); [discriminate Hstable |].
    destruct pre; discriminate H.
  - simpl in Hascii. apply andb_true_iff in Hascii as [Hc Hs].
    simpl trim_start. rewrite Hc. simpl negb. cbv iota.
    destruct (asciiSpace c) eqn:Hsp.
    + apply IH; [exact Hs |]. destruct pre as [|x pre].
      * exfalso. unfold trim_stable in Hstable.
        apply andb_true_iff in Hstable as [Hfirst _]. simpl in H.
        destruct (bytes frag) as [|y ys]; [discriminate Hfirst |].
        injection H as <- _. rewrite Hsp in Hfirst. discriminate Hfirst.
      * simpl in H. injection H as _ H. eauto.
    + change (rev (bytes s) ++ [c]) with (rev (bytes (String c s))).
      apply trim_stop_keeps; [exact Hstable | |].
      * apply Forall_rev. apply (all_bytes_Forall is_ascii_byte (String c s)).
        simpl. rewrite Hc, Hs. reflexivity.
      * rewrite rev_involutive. eauto.
Qed.

(** On ASCII text, an occurrence of a fragment in any letter case is an
    occurrence of its lower-case form in the normalised text. *)
Lemma normalized_keeps_fragment text spelling fragment :
  all_bytes is_ascii_byte text = true ->
  map_bytes lower_byte spelling = fragment ->
  trim_stable fragment = true ->
  Contains text spelling = true ->
  Contains (TrimSpace (ToLower text)) fragment = true.
Proof.
  intros Hascii <- Hstable Hc. unfold TrimSpace, ToLower. rewrite Hascii.
  apply Contains_spec. apply trim_start_keeps; [exact Hstable | |].
  - apply map_lower_all_ascii, Hascii.
  - apply Contains_spec, Contains_map_bytes, Hc.
Qed.


(** C10: the deny list of the handler is the configured one with every
    entry lower-cased and trimmed and the entries that are then empty
    dropped, so that such an entry rejects nothing; a text whose normalised
    form holds a trimmed entry is rejected. With the default entries the
    list is [into outfile], [into dumpfile], [for update],
    [lock in share mode], without their leading space: a text holding one
    of them is rejected, in the normalised form for every text and, for
    ASCII text, as it is written in any letter case. *)
Theorem deny_list_normalized_at_startup database cfg query entry :
  In entry (elems (DenySubstrings (MySQL cfg))) ->
  TrimSpace (ToLower entry) <> "" ->
  Contains (TrimSpace (ToLower query)) (TrimSpace (ToLower entry)) = true ->
  let h := main_handler database cfg in
  elems (denySubstrings h)
    = List.filter nonempty
        (map (fun value => TrimSpace (ToLower value)) (elems (DenySubstrings (MySQL cfg)))) /\
  ~ In "" (elems (denySubstrings h)) /\
  (forall before blank_entry after,
     TrimSpace (ToLower blank_entry) = "" ->
     normalizeList (mk_slice (before ++ blank_entry :: after))
     = normalizeList (mk_slice (before ++ after))) /\
  isReadOnlyQuery query (denySubstrings h) = false /\
  (forall cfg0,
     len (DenySubstrings (MySQL cfg0)) = 0%nat ->
     let h0 := main_handler database (loadConfig_defaults cfg0) in
     denySubstrings h0
       = mk_slice ["into outfile"; "into dumpfile"; "for update"; "lock in share mode"] /\
     forall text fragment,
       In fragment ["into outfile"; "into dumpfile"; "for update"; "lock in share mode"] ->
       (Contains (TrimSpace (ToLower text)) fragment = true ->
        isReadOnlyQuery text (denySubstrings h0) = false) /\
       (forall spelling,
          all_bytes is_ascii_byte text = true ->
          map_bytes lower_byte spelling = fragment ->
          Contains text spelling = true ->
          isReadOnlyQuery text (denySubstrings h0) = false)).
Proof.
  intros Hin Hne Hc h.
  split; [apply normalizeList_filter_map |].
  split; [apply normalizeList_no_empty |].
  split; [apply normalizeList_drops_blank |].
  split.
  - apply deny_loop_rejects, deny_loop_true.
    exists (TrimSpace (ToLower entry)). split; [apply normalizeList_In; auto |]. auto.
  - intros cfg0 Hlen h0.
    assert (denySubstrings h0
            = mk_slice ["into outfile"; "into dumpfile"; "for update"; "lock in share mode"])
      as Hlist.
    { unfold h0, main_handler, loadConfig_defaults. cbn [denySubstrings MySQL DenySubstrings].
      rewrite Hlen. reflexivity. }
    split; [exact Hlist |].
    intros text fragment Hfrag.
    assert (fragment <> "" /\ trim_stable fragment = true) as [Hfne Hstable].
    { simpl in Hfrag. destruct Hfrag as [<- | [<- | [<- | [<- | []]]]];
        (split; [discriminate | reflexivity]). }
    assert (Contains (TrimSpace (ToLower text)) fragment = true ->
            isReadOnlyQuery text (denySubstrings h0) = false) as Hrej.
    { intros Hcont. apply deny_loop_rejects, deny_loop_true.
      exists fragment. rewrite Hlist. auto. }
    split; [exact Hrej |].
    intros spelling Hascii Hlow Hcont. apply Hrej.
    eapply normalized_keeps_fragment; eauto.
Qed.

End DenyListFacts.

(** *** The catalog router *)

Section RouterFacts.
Context `{U : Unicode} `{G : sqlparser.Grammar} `{N : NetURL} `{J : JSON}.

Lemma resource_query_not_found uri host parts err :
  resource_query uri host parts = Err err -> err = ResourceNotFoundError uri.
Proof.
  unfold resource_query.
  repeat match goal with
         | |- context [if ?b then _ else _] => destruct b
         end; congruence.
Qed.

Lemma resource_query_bad_segment uri host parts segment :
  In segment parts -> mysqlIdentifierRE segment = false ->
  resource_query uri host parts = Err (ResourceNotFoundError uri).
Proof.
  intros Hin Hbad. unfold resource_query.
  destruct (host =? "databases")%string.
  { destruct parts; [destruct Hin | reflexivity]. }
  destruct (host =? "tables")%string.
  { destruct parts as [|a [|b parts]]; try reflexivity.
    destruct Hin as [-> | []]. simpl. rewrite Hbad. reflexivity. }
  destruct (host =? "schema")%string; [| reflexivity].
  destruct parts as [|a [|b [|c parts]]]; try reflexivity.
  simpl. destruct Hin as [-> | [-> | []]]; rewrite Hbad; simpl;
    rewrite ?orb_true_r; reflexivity.
Qed.

Lemma readResource_parsed h uri u tr :
  url_Parse uri = Ok u ->
  ToLower (Scheme u) = "mysql" ->
  readResource h uri tr =
  match resource_query uri (ToLower (Host u)) (path_parts u) with
  | Err err => (Err err, tr)
  | Ok query => serve_query h uri query tr
  end.
Proof.
  intros HP HS. unfold readResource. rewrite HP, HS. simpl.
  destruct (resource_query _ _ _); reflexivity.
Qed.

(** C5, as amended: for a locator that [url.Parse] accepts, an unknown
    shape (a scheme other than [mysql], an unknown host, a wrong number
    of path segments) or a path segment that is not an identifier gives
    the not-found error with no database call made, and a known shape
    with identifier segments runs the canned query of that shape. *)
Theorem locator_resolution h uri u tr :
  url_Parse uri = Ok u ->
  let host := ToLower (Host u) in
  (unknown_locator u -> readResource h uri tr = (Err (ResourceNotFoundError uri), tr)) /\
  (ToLower (Scheme u) = "mysql" -> host = "databases" -> path_parts u = [] ->
   readResource h uri tr = serve_query h uri "SHOW DATABASES" tr) /\
  (forall db,
     ToLower (Scheme u) = "mysql" -> host = "tables" -> path_parts u = [db] ->
     mysqlIdentifierRE db = true ->
     readResource h uri tr = serve_query h uri ("SHOW TABLES FROM `" +:+ db +:+ "`") tr) /\
  (forall db table,
     ToLower (Scheme u) = "mysql" -> host = "schema" -> path_parts u = [db; table] ->
     mysqlIdentifierRE db = true -> mysqlIdentifierRE table = true ->
     readResource h uri tr
     = serve_query h uri ("DESCRIBE `" +:+ db +:+ "`.`" +:+ table +:+ "`") tr).
Proof.
  intros HP host. split; [| split; [| split]].
  - intros Hunk.
    destruct (String.eqb_spec (ToLower (Scheme u)) "mysql") as [HS | HS].
    2: { unfold readResource. rewrite HP.
         apply String.eqb_neq in HS. rewrite HS. reflexivity. }
    rewrite (readResource_parsed h uri u tr HP HS). fold host.
    assert (resource_query uri host (path_parts u) = Err (ResourceNotFoundError uri)) as ->;
      [| reflexivity].
    destruct Hunk as [H | [(H1 & H2 & H3) | [[H1 H2] | [[H1 H2] | [[H1 H2] | (seg & H1 & H2)]]]]].
    + contradiction.
    + fold host in H1, H2, H3. unfold resource_query.
      apply String.eqb_neq in H1, H2, H3. rewrite H1, H2, H3. reflexivity.
    + fold host in H1. unfold resource_query. rewrite H1. simpl.
      destruct (path_parts u); [contradiction | reflexivity].
    + fold host in H1. unfold resource_query. rewrite H1. simpl.
      destruct (path_parts u) as [|a [|b l]]; simpl; try reflexivity. contradiction.
    + fold host in H1. unfold resource_query. rewrite H1. simpl.
      destruct (path_parts u) as [|a [|b [|c l]]]; simpl; try reflexivity. contradiction.
    + eapply resource_query_bad_segment; eauto.
  - intros HS Hh Hp. rewrite (readResource_parsed h uri u tr HP HS). fold host.
    rewrite Hh, Hp. reflexivity.
  - intros db HS Hh Hp Hdb. rewrite (readResource_parsed h uri u tr HP HS). fold host.
    rewrite Hh, Hp. unfold resource_query. simpl. rewrite Hdb. reflexivity.
  - intros db table HS Hh Hp Hdb Ht. rewrite (readResource_parsed h uri u tr HP HS). fold host.
    rewrite Hh, Hp. unfold resource_query. simpl. rewrite Hdb, Ht. reflexivity.
Qed.

(** A locator [url.Parse] rejects comes back with the error of the parser,
    and nothing is run. *)
Lemma readResource_parse_error h uri err tr :
  url_Parse uri = Err err -> readResource h uri tr = (Err err, tr).
Proof. intros HP. unfold readResource. rewrite HP. reflexivity. Qed.

End RouterFacts.

(** *** The model on examples *)

(** The scenario of the specification: three rows under the default limit
    are returned whole, values normalised. *)
Example users_under_default_limit :
  snd (fst (fst (@runQuery ascii_only keyword_grammar (users_handler 0)
                   {| Query := "SELECT * FROM users" |} [])))
  = {| Columns := mk_slice ["id"; "name"];
       Rows := mk_slice [[int64_any 1; string_any "alice"];
                         [int64_any 2; string_any "bob"];
                         [int64_any 3; nil_any]];
       RowCount := 3;
       Truncated := false |}.
Proof. reflexivity. Qed.

(** The calls an admitted statement makes, with the limit at two rows: the
    third [Next] finds a row and the loop breaks. *)
Example users_trace_truncated :
  snd (@runQuery ascii_only keyword_grammar (users_handler 2)
         {| Query := "SELECT * FROM users" |} [])
  = [sql.WithTimeout 30000000000; sql.DB_Conn; sql.Conn_BeginTx true;
     sql.Tx_QueryContext "SELECT * FROM users"; sql.Rows_Columns;
     sql.Rows_Next; sql.Rows_Scan 2; sql.Rows_Next; sql.Rows_Scan 2; sql.Rows_Next;
     sql.Rows_Err; sql.Tx_Commit; sql.Rows_Close; sql.Conn_Close; sql.Cancel].
Proof. reflexivity. Qed.

(** The scenario of the specification: the table list of [my_db]. *)
Example tables_of_my_db :
  snd (@readResource ascii_only keyword_grammar simple_url count_json (users_handler 0)
         "mysql://tables/my_db" [])
  = [sql.WithTimeout 30000000000; sql.DB_Conn; sql.Conn_BeginTx true;
     sql.Tx_QueryContext "SHOW TABLES FROM `my_db`"; sql.Rows_Columns;
     sql.Rows_Next; sql.Rows_Scan 2; sql.Rows_Next; sql.Rows_Scan 2;
     sql.Rows_Next; sql.Rows_Scan 2; sql.Rows_Next;
     sql.Rows_Err; sql.Tx_Commit; sql.Rows_Close; sql.Conn_Close; sql.Cancel].
Proof. reflexivity. Qed.

(** [TestNormalizeList] *)
Example test_normalizeList :
  @normalizeList ascii_only (mk_slice ["  SELECT "; ""; "Show"; "  	"; "Describe"])
  = mk_slice ["select"; "show"; "describe"].
Proof. reflexivity. Qed.

(** The entry as configured, with its leading space, does not occur in
    this text; the entry of the handler does. *)
Example leading_space_dropped :
  Contains "select * from tfor update" " for update" = false /\
  Contains "select * from tfor update" "for update" = true.
Proof. split; reflexivity. Qed.

(** [url.Parse] rejects the escape [%zz]; the router hands its error on, and
    that error is not the not-found error. *)
Lemma malformed_locator_generic_error :
  mysqlIdentifierRE "%zz" = false /\
  @readResource ascii_only keyword_grammar simple_url count_json (users_handler 0)
    "mysql://tables/%zz" []
  = (Err (errorString "invalid URL escape"), []) /\
  @readResource ascii_only keyword_grammar simple_url count_json (users_handler 0)
    "mysql://tables/%zz" []
  <> (Err (ResourceNotFoundError "mysql://tables/%zz"), []).
Proof.
  split; [reflexivity |]. split; [reflexivity | discriminate].
Qed.

Lemma locator_resolution_witness :
  @readResource ascii_only keyword_grammar simple_url count_json (users_handler 0)
    "mysql://tables/my-db; drop" []
  = (Err (ResourceNotFoundError "mysql://tables/my-db; drop"), []).
Proof.
  refine (proj1 (@locator_resolution ascii_only keyword_grammar simple_url count_json
                   (users_handler 0) "mysql://tables/my-db; drop"
                   {| Scheme := "mysql"; Host := "tables"; Path := "/my-db; drop" |} []
                   _) _).
  - reflexivity.
  - unfold unknown_locator. do 5 right. exists "my-db; drop". split.
    + left. reflexivity.
    + reflexivity.
Defined.

Lemma row_limit_witness :
  exists result output,
    fst (@runQuery ascii_only keyword_grammar (users_handler 2)
           {| Query := "SELECT * FROM users" |} []) = (result, output, None) /\
    Z.of_nat (len (Rows output)) = 2 /\ RowCount output = 2 /\ Truncated output = true.
Proof.
  destruct (@row_limit ascii_only keyword_grammar (users_handler 2)
              {| Query := "SELECT * FROM users" |} users_result_set users_columns [])
    as (result & output & Hrun & _ & Hmore & _).
  - repeat split; reflexivity.
  - split; [reflexivity | intros _; reflexivity].
  - reflexivity.
  - exists result, output. split; [exact Hrun |].
    destruct Hmore as (_ & Hlen & Hcount & Htrunc); [reflexivity |].
    repeat split; assumption.
Defined.

Lemma failure_shape_witness :
  exists result content,
    fst (@runQuery ascii_only keyword_grammar failing_commit_handler
           {| Query := "SELECT * FROM users" |} []) = (result, empty_output, None) /\
    IsError result = true /\
    Content_ result = [TextContent "failed to finish transaction: connection lost"] /\
    StructuredContent result = Some content /\
    content !! "columns" = Some (slice_any []) /\
    content !! "rows" = Some (slice_any []) /\
    content !! "rowCount" = Some (int_any 0) /\
    content !! "truncated" = Some (bool_any false).
Proof.
  apply (@failure_shape ascii_only keyword_grammar failing_commit_handler
           {| Query := "SELECT * FROM users" |}
           "failed to finish transaction: connection lost" []).
  refine (@commit_failed ascii_only keyword_grammar failing_commit_handler
            "SELECT * FROM users" users_result_set users_columns
            (errorString "connection lost") _ _ _).
  - repeat split; reflexivity.
  - split; [reflexivity | intros _; reflexivity].
  - reflexivity.
Defined.

Lemma returned_result_well_formed_witness :
  let output := {| Columns := mk_slice ["id"; "name"];
                   Rows := mk_slice [[int64_any 1; string_any "alice"];
                                     [int64_any 2; string_any "bob"]];
                   RowCount := 2;
                   Truncated := true |} in
  well_formed 2 output /\
  is_nil (Rows output) = false /\
  exists columns,
    queryOutputToStructuredContent output !! "columns" = Some (slice_any columns).
Proof.
  apply (@returned_result_well_formed ascii_only keyword_grammar (users_handler 2)
           "SELECT * FROM users").
  left. exists []. eexists. split; reflexivity.
Defined.

Lemma rejected_before_database_witness :
  (exists result,
     @runQuery ascii_only keyword_grammar (users_handler 0)
       {| Query := "select 1; select 2" |} [] = (result, empty_output, None, []) /\
     IsError result = true /\
     Content_ result = [TextContent "only read-only queries are allowed"]) /\
  @runQueryForResource ascii_only keyword_grammar (users_handler 0) "select 1; select 2" []
  = (zero_QueryOutput, Some (errorString "only read-only queries are allowed"), []).
Proof.
  apply (@rejected_before_database ascii_only keyword_grammar (users_handler 0)
           {| Query := "select 1; select 2" |} []).
  reflexivity.
Defined.

Lemma deny_list_normalized_at_startup_witness :
  @isReadOnlyQuery ascii_only keyword_grammar "select * from tfor update"
    (denySubstrings (users_handler 0)) = false.
Proof.
  refine (proj1 (proj2 (proj2 (proj2
            (@deny_list_normalized_at_startup ascii_only keyword_grammar
               (table_db users_columns users_rows)
               (loadConfig_defaults (config_with 0 nil_slice))
               "select * from tfor update" " for update" _ _ _))))).
  - simpl. auto.
  - vm_compute. discriminate.
  - reflexivity.
Defined.

(** ** Further properties of the code *)

(** *** The calls of the executor *)

Lemma row_loop_split ncols m fe pending : forall results rc tr,
  row_loop ncols m fe pending results rc tr
  = (fst (row_loop ncols m fe pending results rc []),
     tr ++ snd (row_loop ncols m fe pending results rc [])).
Proof.
  induction pending as [|r pending IH]; intros results rc tr.
  - rewrite !row_loop_unfold. reflexivity.
  - rewrite (row_loop_unfold _ _ _ _ _ _ tr), (row_loop_unfold _ _ _ _ _ _ []).
    destruct (rc >=? m); [reflexivity |].
    destruct (sql.Scan ncols r) as [values | err].
    + rewrite IH. rewrite (IH _ _ (([] ++ [sql.Rows_Next]) ++ [sql.Rows_Scan ncols])).
      cbn [fst snd]. rewrite <- !app_assoc. reflexivity.
    + cbn [fst snd]. rewrite <- !app_assoc. reflexivity.
Qed.

Lemma count_app p (a b : list sql.Event) : count p (a ++ b) = (count p a + count p b)%nat.
Proof. unfold count. rewrite List.filter_app, length_app. reflexivity. Qed.

Lemma count_cons p e (l : list sql.Event) : count p (e :: l) = (b2n (p e) + count p l)%nat.
Proof. unfold count. simpl. destruct (p e); reflexivity. Qed.

Lemma count_nil p : count p [] = 0%nat.
Proof. reflexivity. Qed.

(** The loop calls [Next] and [Scan] only, scans at most as many rows as
    the limit leaves and as the result set holds, and calls [Next] once
    more than it scans unless a scan fails. *)
Lemma row_loop_calls ncols m fe pending : forall results rc,
  rc <= m ->
  let tr := snd (row_loop ncols m fe pending results rc []) in
  Forall (fun e => is_Next e || is_Scan e = true) tr /\
  (count is_Scan tr <= Z.to_nat (m - rc))%nat /\
  (count is_Scan tr <= length pending)%nat /\
  (count is_Scan tr <= count is_Next tr <= count is_Scan tr + 1)%nat.
Proof.
  induction pending as [|r pending IH]; intros results rc Hle; rewrite row_loop_unfold.
  - cbn. repeat split; try lia. repeat constructor.
  - destruct (rc >=? m) eqn:E.
    { cbn. repeat split; try lia. repeat constructor. }
    destruct (sql.Scan ncols r) as [values | err].
    + rewrite row_loop_split. cbn [snd].
      destruct (IH (append results (map normalizeValue values)) (rc + 1)) as (HF & H1 & H2 & H3);
        [lia |].
      split; [| rewrite !count_app, !count_cons, !count_nil; cbn [b2n is_Scan is_Next length];
                repeat split; lia].
      apply Forall_app. split; [repeat constructor | exact HF].
    + cbn [snd]. rewrite !count_app, !count_cons, !count_nil. cbn.
      repeat split; try lia. repeat constructor.
Qed.

Section TraceFacts.
Context `{U : Unicode} `{G : sqlparser.Grammar}.

(** The calls of [runQuery], stage by stage. *)
Lemma calls_eq h input :
  calls h input =
  if negb (isReadOnlyQuery (Query input) (denySubstrings h)) then []
  else
    [sql.WithTimeout (timeout (config h)); sql.DB_Conn] ++
    match sql.Conn (db h) with
    | Some _ => []
    | None =>
        [sql.Conn_BeginTx true] ++
        match sql.BeginTx (db h) with
        | Some _ => []
        | None =>
            [sql.Tx_QueryContext (Query input)] ++
            match sql.QueryContext (db h) (Query input) with
            | Err _ => [sql.Tx_Rollback]
            | Ok rows =>
                [sql.Rows_Columns] ++
                match sql.Columns_ rows with
                | Err _ => [sql.Tx_Rollback]
                | Ok columns =>
                    snd (loop_run h rows columns) ++ after_loop (fst (loop_run h rows columns))
                end ++ [sql.Rows_Close]
            end
        end ++ [sql.Conn_Close]
    end ++ [sql.Cancel].
Proof.
  unfold calls, runQuery, defer, bind, emit, ret.
  destruct (isReadOnlyQuery (Query input) (denySubstrings h)); cbv beta iota delta [negb];
    [| reflexivity].
  destruct (sql.Conn (db h)); rewrite ?tool_error_run; [reflexivity |].
  destruct (sql.BeginTx (db h)); rewrite ?tool_error_run; [reflexivity |].
  destruct (sql.QueryContext (db h) (Query input)) as [rows | err]; rewrite ?tool_error_run;
    [| reflexivity].
  destruct (sql.Columns_ rows) as [columns | err]; rewrite ?tool_error_run; [| reflexivity].
  fold (declared columns). rewrite row_loop_split. fold (loop_run h rows columns).
  destruct (loop_run h rows columns) as [exit tr1]. cbn [fst snd].
  destruct exit as [err | results rowCount truncated [err|]]; rewrite ?tool_error_run;
    cbn [snd after_loop]; rewrite <- ?app_assoc; try reflexivity.
  destruct (sql.Commit (db h)); rewrite ?tool_error_run; cbn [snd];
    rewrite <- ?app_assoc; reflexivity.
Qed.

(** The trace a call starts from is left in front of its own calls. *)
Lemma runQuery_calls h input tr :
  snd (runQuery h input tr) = tr ++ calls h input.
Proof.
  unfold calls, runQuery, defer, bind, emit, ret.
  destruct (isReadOnlyQuery (Query input) (denySubstrings h)); cbv beta iota delta [negb];
    [| rewrite !tool_error_run, app_nil_r; reflexivity].
  destruct (sql.Conn (db h)); rewrite ?tool_error_run;
    [cbn [snd]; rewrite <- !app_assoc; reflexivity |].
  destruct (sql.BeginTx (db h)); rewrite ?tool_error_run;
    [cbn [snd]; rewrite <- !app_assoc; reflexivity |].
  destruct (sql.QueryContext (db h) (Query input)) as [rows | err]; rewrite ?tool_error_run;
    [| cbn [snd]; rewrite <- !app_assoc; reflexivity].
  destruct (sql.Columns_ rows) as [columns | err]; rewrite ?tool_error_run;
    [| cbn [snd]; rewrite <- !app_assoc; reflexivity].
  rewrite !(row_loop_split _ _ _ _ _ _ (_ ++ _)).
  destruct (fst (row_loop _ _ _ _ _ _ [])) as [err | results rowCount truncated [err|]];
    rewrite ?tool_error_run; cbn [snd fst]; rewrite <- ?app_assoc; try reflexivity.
  destruct (sql.Commit (db h)); rewrite ?tool_error_run; cbn [snd];
    rewrite <- ?app_assoc; reflexivity.
Qed.

End TraceFacts.

Lemma count_none p (l : list sql.Event) :
  Forall (fun e => p e = false) l -> count p l = 0%nat.
Proof.
  unfold count. induction 1 as [|e l He _ IH]; simpl; [reflexivity |].
  rewrite He. exact IH.
Qed.

Section ExecutorCalls.
Context `{U : Unicode} `{G : sqlparser.Grammar}.

Lemma loop_run_calls h rows columns :
  let tr := snd (loop_run h rows columns) in
  Forall (fun e => is_Next e || is_Scan e = true) tr /\
  (count is_Scan tr <= Z.to_nat (maxRows (config h)))%nat /\
  (count is_Scan tr <= length (sql.pending rows))%nat /\
  (count is_Scan tr <= count is_Next tr <= count is_Scan tr + 1)%nat.
Proof.
  pose proof (maxRows_pos (config h)) as Hpos.
  pose proof (row_loop_calls (len (declared columns)) (maxRows (config h))
                (sql.final_err rows) (sql.pending rows) (mk_slice []) 0) as H.
  rewrite Z.sub_0_r in H. apply H. lia.
Qed.

(** A call the loop does not make is not in its trace. *)
Lemma loop_run_other p h rows columns :
  (forall e, is_Next e || is_Scan e = true -> p e = false) ->
  count p (snd (loop_run h rows columns)) = 0%nat.
Proof.
  intros Hp. apply count_none.
  destruct (loop_run_calls h rows columns) as [HF _].
  eapply Forall_impl; [exact HF | exact Hp].
Qed.

Ltac other_call :=
  let ev := fresh "ev" in intros ev; destruct ev; simpl; intros; congruence.

Ltac count_calls :=
  rewrite ?count_app, ?count_cons, ?count_nil;
  rewrite ?loop_run_other by other_call;
  cbn [b2n is_WithTimeout is_Cancel is_DB_Conn is_Conn_Close is_BeginTx is_QueryContext
       is_Rollback is_Commit is_Next is_Scan is_Rows_Close Nat.add].

Ltac stages h input :=
  rewrite calls_eq; unfold queried, begun, connected;
  destruct (isReadOnlyQuery (Query input) (denySubstrings h)) eqn:Hadm;
    cbv beta iota delta [negb andb is_None is_Ok];
    [| try (repeat split; reflexivity)];
  [destruct (sql.Conn (db h)) as [?|] eqn:Hconn;
     [| destruct (sql.BeginTx (db h)) as [?|] eqn:Hbegin;
        [| destruct (sql.QueryContext (db h) (Query input)) as [rows|?] eqn:Hquery;
           [destruct (sql.Columns_ rows) as [columns|?] eqn:Hcols |]]] | ..].

(** X1: every context is cancelled, every connection acquired is closed
    and every result set opened is closed, once each, whichever way the
    call ends; the cancellation comes last. *)
Theorem resources_released h input :
  let q := Query input in
  let tr := calls h input in
  let admitted := isReadOnlyQuery q (denySubstrings h) in
  count is_WithTimeout tr = b2n admitted /\
  count is_Cancel tr = b2n admitted /\
  count is_DB_Conn tr = b2n admitted /\
  count is_Conn_Close tr = b2n (connected h q) /\
  count is_Rows_Close tr = b2n (queried h q) /\
  (admitted = true -> last tr = Some sql.Cancel).
Proof.
  cbv zeta.
  assert (forall l : list sql.Event, last (l ++ [sql.Cancel]) = Some sql.Cancel) as Hlast
    by (intros l; apply last_snoc).
  stages h input; try (destruct (fst (loop_run h rows columns)) as [? | ? ? ? [?|]]);
    cbn [after_loop]; repeat split;
    try discriminate;
    try (intros _; rewrite ?app_assoc; apply Hlast);
    count_calls; reflexivity.
Qed.


Lemma loop_run_Forall (P : sql.Event -> Prop) h rows columns :
  (forall e, is_Next e || is_Scan e = true -> P e) ->
  Forall P (snd (loop_run h rows columns)).
Proof.
  intros HP. destruct (loop_run_calls h rows columns) as [HF _].
  eapply Forall_impl; [exact HF | exact HP].
Qed.

Ltac forall_calls :=
  repeat (apply Forall_app; split);
  repeat (apply Forall_cons; split);
  try apply Forall_nil;
  try (apply loop_run_Forall; let ev := fresh "ev" in intros ev; destruct ev);
  simpl; intros; try exact I; try congruence; try discriminate.

(** X2: the transaction is begun read-only, once per connection, and
    every transaction begun is ended by exactly one rollback or commit. *)
Theorem transaction_read_only_and_ended_once h input :
  let q := Query input in
  let tr := calls h input in
  count is_BeginTx tr = b2n (connected h q) /\
  Forall (fun e => is_BeginTx e = true -> e = sql.Conn_BeginTx true) tr /\
  (count is_Rollback tr + count is_Commit tr)%nat = b2n (begun h q).
Proof.
  cbv zeta.
  stages h input; try (destruct (fst (loop_run h rows columns)) as [? | ? ? ? [?|]]);
    cbn [after_loop]; repeat split;
    try (count_calls; reflexivity); forall_calls.
Qed.

(** A statement in the trace is the text of the call, and was admitted. *)
Lemma calls_query_text h input q :
  In (sql.Tx_QueryContext q) (calls h input) ->
  q = Query input /\ isReadOnlyQuery q (denySubstrings h) = true.
Proof.
  assert (Forall (fun e => forall q, e = sql.Tx_QueryContext q ->
                     q = Query input /\
                     isReadOnlyQuery q (denySubstrings h) = true) (calls h input)) as HF.
  { stages h input; try (destruct (fst (loop_run h rows columns)) as [? | ? ? ? [?|]]);
      cbn [after_loop]; forall_calls;
      match goal with
      | H : sql.Tx_QueryContext _ = sql.Tx_QueryContext _ |- _ => injection H as <-
      end; auto. }
  intros Hin. rewrite List.Forall_forall in HF. exact (HF _ Hin q eq_refl).
Qed.

(** X3: the only statement sent to the database is the text of the call,
    at most once, and only if the classifier admitted it. *)
Theorem only_the_admitted_text_is_executed h input :
  let tr := calls h input in
  count is_QueryContext tr = b2n (begun h (Query input)) /\
  (forall q, In (sql.Tx_QueryContext q) tr ->
             q = Query input /\ isReadOnlyQuery q (denySubstrings h) = true).
Proof.
  cbv zeta. split.
  - stages h input; try (destruct (fst (loop_run h rows columns)) as [? | ? ? ? [?|]]);
      cbn [after_loop]; count_calls; reflexivity.
  - intros q. apply calls_query_text.
Qed.

(** X4: the loop never scans more rows than [maxRows], nor more than the
    result set holds, and asks for at most one row beyond those it scans. *)
Theorem reads_bounded_by_limit h input :
  let tr := calls h input in
  (count is_Scan tr <= Z.to_nat (maxRows (config h)))%nat /\
  (count is_Scan tr <= count is_Next tr <= count is_Scan tr + 1)%nat /\
  (forall rows, sql.QueryContext (db h) (Query input) = Ok rows ->
                (count is_Scan tr <= length (sql.pending rows))%nat).
Proof.
  cbv zeta.
  stages h input;
    try (pose proof (loop_run_calls h rows columns) as (_ & H1 & H2 & H3);
         destruct (fst (loop_run h rows columns)) as [? | ? ? ? [?|]]);
    cbn [after_loop]; count_calls;
    (split; [| split]); try lia; try (intros ? ?; lia);
    intros rows' [= <-]; lia.
Qed.

End ExecutorCalls.

Section ExecutorOutcomes.
Context `{U : Unicode} `{G : sqlparser.Grammar}.

(** The loop ends past its last row without an error exactly when every
    accepted row scans and a short result set ended cleanly. *)
Lemma loop_run_clean h rows columns :
  (exists results rowCount truncated,
     fst (loop_run h rows columns) = LoopDone results rowCount truncated None) <->
  streamed h rows columns.
Proof.
  pose proof (maxRows_pos (config h)) as Hpos.
  unfold loop_run, streamed, accepted. split.
  - intros (results & rowCount & truncated & Hrun).
    destruct (first_failure (scan_ok (len (declared columns)))
                (take (Z.to_nat (maxRows (config h))) (sql.pending rows)))
      as [Hall | (before & r & after & Hsplit & Hbefore & Hr)].
    + split; [exact Hall |]. intros Hle.
      rewrite row_loop_streams in Hrun by (rewrite ?Z.sub_0_r; auto; lia).
      rewrite Z.sub_0_r in Hrun.
      assert (Nat.ltb (Z.to_nat (maxRows (config h))) (length (sql.pending rows)) = false)
        as Hlt by (apply Nat.ltb_ge; lia).
      rewrite Hlt in Hrun. injection Hrun as _ _ _ Hfe. exact Hfe.
    + exfalso. unfold scan_ok in Hr.
      destruct (sql.Scan (len (declared columns)) r) as [vs | err] eqn:HS; [discriminate |].
      assert (length (take (Z.to_nat (maxRows (config h))) (sql.pending rows))
              = length (before ++ r :: after)) as Hlen by (rewrite Hsplit; reflexivity).
      rewrite length_take, length_app in Hlen. simpl in Hlen.
      rewrite <- (take_drop (Z.to_nat (maxRows (config h))) (sql.pending rows)) in Hrun.
      rewrite Hsplit, <- app_assoc in Hrun. simpl in Hrun.
      rewrite row_loop_scan_error with (err := err) in Hrun; auto; [discriminate | lia].
  - intros [Hall Hend].
    rewrite row_loop_streams by (rewrite ?Z.sub_0_r; auto; lia).
    rewrite Z.sub_0_r.
    destruct (Nat.ltb _ _) eqn:Hlt; [eauto |].
    apply Nat.ltb_ge in Hlt. rewrite Hend by lia. eauto.
Qed.

(** X5: a commit is attempted exactly when the statement was admitted and
    started and the loop went through; in every other case of a begun
    transaction the call rolls back. *)
Theorem commit_only_after_clean_loop h input :
  In sql.Tx_Commit (calls h input) <->
  exists rows columns,
    opened h (Query input) rows columns /\ streamed h rows columns.
Proof.
  rewrite calls_eq. unfold opened.
  destruct (isReadOnlyQuery (Query input) (denySubstrings h)) eqn:Hadm;
    cbv beta iota delta [negb].
  2: { split; [intros [] | intros (? & ? & (? & _) & _); discriminate]. }
  destruct (sql.Conn (db h)) as [?|] eqn:Hconn.
  { split; [| intros (? & ? & (_ & ? & _) & _); discriminate].
    simpl. intuition discriminate. }
  destruct (sql.BeginTx (db h)) as [?|] eqn:Hbegin.
  { split; [| intros (? & ? & (_ & _ & ? & _) & _); discriminate].
    simpl. intuition discriminate. }
  destruct (sql.QueryContext (db h) (Query input)) as [rows|?] eqn:Hquery.
  2: { split; [| intros (? & ? & (_ & _ & _ & ? & _) & _); discriminate].
       simpl. intuition discriminate. }
  destruct (sql.Columns_ rows) as [columns|?] eqn:Hcols.
  2: { split.
       - simpl. intuition discriminate.
       - intros (rows' & ? & (_ & _ & _ & Hq & Hc) & _).
         injection Hq as <-. congruence. }
  assert (In sql.Tx_Commit (snd (loop_run h rows columns)) -> False) as Hloop.
  { intros Hin. destruct (loop_run_calls h rows columns) as [HF _].
    rewrite List.Forall_forall in HF. specialize (HF _ Hin). discriminate HF. }
  split.
  - intros Hin. exists rows, columns. split; [auto |].
    apply loop_run_clean.
    destruct (fst (loop_run h rows columns)) as [? | ? ? ? [?|]]; [| | eauto];
      exfalso; cbn [after_loop] in Hin;
      repeat (apply in_app_or in Hin; destruct Hin as [Hin | Hin]);
      try (apply Hloop, Hin); simpl in Hin; intuition discriminate.
  - intros (rows' & columns' & (_ & _ & _ & Hq & Hc) & Hstream).
    injection Hq as <-.
    assert (columns' = columns) as -> by congruence.
    apply loop_run_clean in Hstream as (results & rowCount & truncated & ->).
    cbn [after_loop]. rewrite !in_app_iff. simpl. intuition.
Qed.

End ExecutorOutcomes.

Lemma normalizeValue_transport_safe v : transport_safe (normalizeValue v).
Proof. destruct v; simpl; split; intros; discriminate. Qed.

Section ExecutorResults.
Context `{U : Unicode} `{G : sqlparser.Grammar}.

(** A call that goes through returns the stored form of the accepted
    rows. *)
Lemma runQuery_success h input rows columns tr :
  opened h (Query input) rows columns ->
  streamed h rows columns ->
  sql.Commit (db h) = None ->
  exists result,
    IsError result = false /\
    Content_ result = [TextContent "ok"] /\
    fst (runQuery h input tr)
    = (result,
       {| Columns := declared columns;
          Rows := mk_slice (map stored (accepted h rows));
          RowCount := Z.of_nat (length (accepted h rows));
          Truncated := Nat.ltb (Z.to_nat (maxRows (config h))) (length (sql.pending rows)) |},
       None).
Proof.
  intros Hopen [Hscan Hend] Hcommit.
  pose proof (maxRows_pos (config h)) as Hpos.
  destruct (runQuery_opened h input rows columns tr Hopen) as [tr0 ->].
  unfold accepted in *.
  rewrite row_loop_streams by (rewrite ?Z.sub_0_r; auto; lia).
  rewrite Z.sub_0_r.
  assert ((if Nat.ltb (Z.to_nat (maxRows (config h))) (length (sql.pending rows))
           then None else sql.final_err rows) = None) as ->.
  { destruct (Nat.ltb _ _) eqn:Hlt; [reflexivity |].
    apply Nat.ltb_ge in Hlt. apply Hend. lia. }
  rewrite Hcommit.
  rewrite make_output_not_nil by (apply declared_not_nil || reflexivity).
  eexists. split; [| split; [| reflexivity]]; reflexivity.
Qed.

(** X6: the failure flag is set exactly when the call fails in one of the
    listed ways, and the text of the result is then the text of that
    failure. *)
Theorem failure_flag_iff h input tr :
  let result := fst (fst (fst (runQuery h input tr))) in
  (IsError result = true <-> exists text, Failure h (Query input) text) /\
  (forall text, Failure h (Query input) text -> Content_ result = [TextContent text]).
Proof.
  cbv zeta. split; [split |].
  - intros Hflag.
    destruct (failure_or_success h (Query input)) as [HF | (rows & columns & Ho & Hs & Hc)];
      [exact HF |].
    destruct (runQuery_success h input rows columns tr Ho Hs Hc) as (result & Hok & _ & Hrun).
    rewrite Hrun in Hflag. cbn [fst] in Hflag. congruence.
  - intros [text HF]. rewrite (runQuery_failure h input text tr HF). reflexivity.
  - intros text HF. rewrite (runQuery_failure h input text tr HF). reflexivity.
Qed.

(** X7: a result without the failure flag comes from an admitted statement
    whose transaction committed; its rows are the stored form of the first
    [maxRows] rows of the result set, in order, and [truncated] tells
    whether the result set held more. *)
Theorem returned_rows_are_a_committed_prefix h input tr result output err :
  fst (runQuery h input tr) = (result, output, err) ->
  IsError result = false ->
  exists rows columns,
    opened h (Query input) rows columns /\
    streamed h rows columns /\
    sql.Commit (db h) = None /\
    Columns output = declared columns /\
    elems (Rows output) = map stored (firstn (Z.to_nat (maxRows (config h))) (sql.pending rows)) /\
    RowCount output = Z.min (maxRows (config h)) (Z.of_nat (length (sql.pending rows))) /\
    (Truncated output = true <->
     maxRows (config h) < Z.of_nat (length (sql.pending rows))).
Proof.
  intros Hrun Hok.
  pose proof (maxRows_pos (config h)) as Hpos.
  destruct (failure_or_success h (Query input)) as [[text HF] | (rows & columns & Ho & Hs & Hc)].
  { rewrite (runQuery_failure h input text tr HF) in Hrun.
    injection Hrun as <- _ _. discriminate Hok. }
  destruct (runQuery_success h input rows columns tr Ho Hs Hc) as (result' & _ & _ & Hrun').
  rewrite Hrun' in Hrun. injection Hrun as _ <- _.
  exists rows, columns. cbn [Columns Rows RowCount Truncated elems].
  split; [exact Ho |]. split; [exact Hs |]. split; [exact Hc |].
  split; [reflexivity |]. split; [reflexivity |]. split.
  - unfold accepted. rewrite length_take. lia.
  - split; intros Hlt; [apply Nat.ltb_lt in Hlt | apply Nat.ltb_lt]; lia.
Qed.

(** X8: no value of a returned row is a raw byte sequence or a timestamp:
    every one went through [normalizeValue]. *)
Theorem returned_values_are_normalized h input tr result output err :
  fst (runQuery h input tr) = (result, output, err) ->
  Forall (fun row => Forall transport_safe row /\ map normalizeValue row = row)
    (elems (Rows output)).
Proof.
  intros Hrun.
  destruct (failure_or_success h (Query input)) as [[text HF] | (rows & columns & Ho & Hs & Hc)].
  { rewrite (runQuery_failure h input text tr HF) in Hrun.
    injection Hrun as _ <- _. constructor. }
  destruct (runQuery_success h input rows columns tr Ho Hs Hc) as (result' & _ & _ & Hrun').
  rewrite Hrun' in Hrun. injection Hrun as _ <- _.
  cbn [Rows elems]. apply List.Forall_forall. intros row Hin.
  apply in_map_iff in Hin as (r & <- & _). unfold stored. split.
  - apply List.Forall_forall. intros v Hv.
    apply in_map_iff in Hv as (v0 & <- & _). apply normalizeValue_transport_safe.
  - rewrite map_map. apply map_ext. intros v. apply normalizeValue_idempotent.
Qed.

Ltac executor_cases h query :=
  unfold runQuery, runQueryForResource, defer, bind, emit, ret; cbn [Query];
  destruct (isReadOnlyQuery query (denySubstrings h)); cbv beta iota delta [negb];
    rewrite ?tool_error_run;
  [destruct (sql.Conn (db h)); rewrite ?tool_error_run;
   [| destruct (sql.BeginTx (db h)); rewrite ?tool_error_run;
      [| destruct (sql.QueryContext (db h) query) as [rows | ?]; rewrite ?tool_error_run;
         [destruct (sql.Columns_ rows) as [columns | ?]; rewrite ?tool_error_run;
          [destruct (row_loop _ _ _ _ _ _ _) as [exit tr1];
           destruct exit as [? | results rowCount truncated [?|]]; rewrite ?tool_error_run;
           [| | destruct (sql.Commit (db h)); rewrite ?tool_error_run] |] |]]] |].

(** The resource path returns what the tool returns: the same output, or
    the text of the tool result as its error. *)
Lemma resource_path_mirrors_tool h query tr :
  exists result output text,
    fst (runQuery h {| Query := query |} tr) = (result, output, None) /\
    Content_ result = [TextContent text] /\
    fst (runQueryForResource h query tr)
    = if IsError result then (zero_QueryOutput, Some (errorString text))
      else (output, None).
Proof. executor_cases h query; eexists _, _, _; repeat split. Qed.

Lemma resource_path_trace h query tr :
  snd (runQueryForResource h query tr) = snd (runQuery h {| Query := query |} tr).
Proof. executor_cases h query; reflexivity. Qed.

Lemma runQueryForResource_failure h query text tr :
  Failure h query text ->
  fst (runQueryForResource h query tr) = (zero_QueryOutput, Some (errorString text)).
Proof.
  intros HF.
  destruct (resource_path_mirrors_tool h query tr) as (result & output & text' & Hrun & Htext & ->).
  rewrite (runQuery_failure h {| Query := query |} text tr HF) in Hrun.
  injection Hrun as <- _. cbn in Htext. injection Htext as <-. reflexivity.
Qed.

(** X9: the tool and the resource path make the same database calls and
    agree on the outcome: the same output when the call goes through, and
    on a failure the error of the resource path carries the text of the
    tool result, with the zero output instead of the empty one. *)
Theorem executors_agree h query tr :
  snd (runQueryForResource h query tr) = snd (runQuery h {| Query := query |} tr) /\
  exists result output text,
    fst (runQuery h {| Query := query |} tr) = (result, output, None) /\
    Content_ result = [TextContent text] /\
    fst (runQueryForResource h query tr)
    = if IsError result then (zero_QueryOutput, Some (errorString text))
      else (output, None).
Proof.
  executor_cases h query.
  all: split; [reflexivity |].
  all: eexists _, _, _; repeat split.
Qed.

End ExecutorResults.

(** *** Limits, structured content and configuration *)

(** X10: the deadline of a call is always positive and fits an [int64]; it
    is the configured number of seconds as long as the product by
    [time.Second] does not overflow, and 30 seconds for a value from
    zero down to the point where the product wraps around. *)
Theorem timeout_bounds cfg :
  let seconds := QueryTimeoutSeconds (MySQL cfg) in
  0 < timeout cfg < 2 ^ 63 /\
  (0 < seconds <= 9223372036 -> timeout cfg = seconds * Second) /\
  (-9223372036 <= seconds <= 0 -> timeout cfg = 30 * Second).
Proof.
  cbv zeta. unfold timeout, wrap64, Second.
  set (s := QueryTimeoutSeconds (MySQL cfg)).
  assert (2 ^ 63 = 9223372036854775808) as E63 by reflexivity.
  assert (2 ^ 64 = 18446744073709551616) as E64 by reflexivity.
  rewrite E63, E64.
  pose proof (Z.mod_pos_bound (s * 1000000000 + 9223372036854775808) 18446744073709551616
                ltac:(lia)) as Hmod.
  split; [| split].
  - destruct (_ <=? 0) eqn:E; lia.
  - intros Hs.
    rewrite Z.mod_small by lia.
    destruct (_ <=? 0) eqn:E; lia.
  - intros Hs.
    rewrite Z.mod_small by lia.
    destruct (_ <=? 0) eqn:E; lia.
Qed.

Lemma map_string_any_inj l1 l2 : map string_any l1 = map string_any l2 -> l1 = l2.
Proof.
  revert l2. induction l1 as [|a l1 IH]; intros [|b l2] H; try discriminate; [reflexivity |].
  simpl in H. injection H as -> H. f_equal. auto.
Qed.

Lemma map_slice_any_inj l1 l2 : map slice_any l1 = map slice_any l2 -> l1 = l2.
Proof.
  revert l2. induction l1 as [|a l1 IH]; intros [|b l2] H; try discriminate; [reflexivity |].
  simpl in H. injection H as -> H. f_equal. auto.
Qed.

(** X11: the structured content has exactly the keys [columns], [rows],
    [rowCount] and [truncated], and it tells two outputs apart exactly
    when they differ in their column names, rows, row count or truncation
    flag: a [nil] slice and an empty one give the same content. *)
Theorem structured_content_faithful o1 o2 :
  dom (queryOutputToStructuredContent o1)
    = ({["columns"; "rows"; "rowCount"; "truncated"]} : gset string) /\
  (queryOutputToStructuredContent o1 = queryOutputToStructuredContent o2 <->
   elems (Columns o1) = elems (Columns o2) /\
   elems (Rows o1) = elems (Rows o2) /\
   RowCount o1 = RowCount o2 /\
   Truncated o1 = Truncated o2).
Proof.
  split.
  - unfold queryOutputToStructuredContent.
    rewrite !dom_insert_L, dom_empty_L. set_solver.
  - split.
    + intros Heq.
      destruct (structured_content_fields o1) as (C1 & R1 & N1 & T1).
      destruct (structured_content_fields o2) as (C2 & R2 & N2 & T2).
      cbv zeta in *. rewrite Heq in C1, R1, N1, T1.
      rewrite C1 in C2. rewrite R1 in R2. rewrite N1 in N2. rewrite T1 in T2.
      injection C2 as C2. injection R2 as R2. injection N2 as N2. injection T2 as T2.
      apply map_string_any_inj in C2. apply map_slice_any_inj in R2. auto.
    + intros (C & R & N & T). unfold queryOutputToStructuredContent.
      rewrite C, R, N, T. reflexivity.
Qed.

Section ConfigFacts.
Context `{T : TOML}.


End ConfigFacts.

(** *** The locators the router resolves *)

Lemma all_bytes_app p (a b : string) :
  all_bytes p (a +:+ b) = all_bytes p a && all_bytes p b.
Proof.
  induction a as [|c a IH]; [reflexivity |].
  rewrite append_cons. simpl. rewrite IH, andb_assoc. reflexivity.
Qed.

Lemma all_bytes_impl (p q : ascii -> bool) s :
  (forall c, p c = true -> q c = true) -> all_bytes p s = true -> all_bytes q s = true.
Proof.
  intros Hpq. induction s as [|c s IH]; simpl; [reflexivity |].
  rewrite !andb_true_iff. intros [Hc Hs]. auto.
Qed.

Lemma identifier_bytes s :
  mysqlIdentifierRE s = true -> s <> "" /\ all_bytes ident_byte s = true.
Proof.
  unfold mysqlIdentifierRE. rewrite andb_true_iff, negb_true_iff, String.eqb_neq. tauto.
Qed.

Lemma ident_byte_statement c : ident_byte c = true -> statement_byte c = true.
Proof. unfold statement_byte. intros ->. reflexivity. Qed.

Lemma ident_byte_not_slash c : ident_byte c = true -> not_slash c = true.
Proof. destruct c as [[] [] [] [] [] [] [] []]; vm_compute; congruence. Qed.

(** A text without the byte [c] does not contain the one-byte text [c]. *)
Lemma Contains_byte_false p c s :
  all_bytes p s = true -> p c = false -> Contains s (String c "") = false.
Proof.
  intros Hall Hc. destruct (Contains s (String c "")) eqn:E; [| reflexivity].
  apply Contains_spec in E as (pre & post & E).
  apply all_bytes_Forall in Hall. rewrite E in Hall.
  apply Forall_app in Hall as [_ Hall]. simpl in Hall.
  inversion Hall; subst. congruence.
Qed.

Lemma Split_byte_not_nil s sep : Split_byte s sep <> [].
Proof.
  destruct s as [|c s]; simpl; [discriminate |].
  destruct (Ascii.eqb c sep); [discriminate |].
  destruct (Split_byte s sep); discriminate.
Qed.

(** [strings.Join(strings.Split(s, sep), sep)] is [s]. *)
Lemma Split_byte_join s sep :
  String.concat (String sep "") (Split_byte s sep) = s.
Proof.
  induction s as [|c s IH]; [reflexivity |].
  simpl Split_byte. destruct (Ascii.eqb_spec c sep) as [-> | Hne].
  - pose proof (Split_byte_not_nil s sep) as Hnn.
    destruct (Split_byte s sep) as [|part parts] eqn:E; [congruence |].
    cbn [String.concat]. rewrite <- IH. reflexivity.
  - pose proof (Split_byte_not_nil s sep) as Hnn.
    destruct (Split_byte s sep) as [|part parts] eqn:E; [congruence |].
    rewrite <- IH. destruct parts; reflexivity.
Qed.

Lemma Split_byte_whole s :
  all_bytes not_slash s = true -> Split_byte s "/" = [s].
Proof.
  induction s as [|c s IH]; [reflexivity |].
  simpl. rewrite andb_true_iff. intros [Hc Hs].
  unfold not_slash in Hc. apply negb_true_iff in Hc. rewrite Hc, (IH Hs). reflexivity.
Qed.

Lemma Split_byte_first a b :
  all_bytes not_slash a = true ->
  Split_byte (a +:+ "/" +:+ b) "/" = a :: Split_byte b "/".
Proof.
  induction a as [|c a IH]; [reflexivity |].
  simpl all_bytes. rewrite andb_true_iff. intros [Hc Ha].
  rewrite append_cons. simpl Split_byte.
  unfold not_slash in Hc. apply negb_true_iff in Hc. rewrite Hc, (IH Ha). reflexivity.
Qed.

Lemma substring_whole s : String.substring 0 (String.length s) s = s.
Proof. induction s as [|c s IH]; simpl; [reflexivity | rewrite IH; reflexivity]. Qed.

(** [TrimPrefix] takes one leading slash off, and only one. *)
Lemma TrimPrefix_slash p :
  TrimPrefix p "/" = match p with
                     | String c p' => if Ascii.eqb c "/" then p' else p
                     | EmptyString => EmptyString
                     end.
Proof.
  destruct p as [|c p']; [reflexivity |].
  unfold TrimPrefix.
  change (HasPrefix (String c p') "/") with (Ascii.eqb "/" c && HasPrefix p' "").
  rewrite HasPrefix_empty, andb_true_r, (Ascii.eqb_sym "/" c).
  destruct (Ascii.eqb c "/"); [| reflexivity].
  change (String.substring (String.length "/") (String.length (String c p') - String.length "/")
            (String c p'))
    with (String.substring 0 (String.length p' - 0) p').
  rewrite Nat.sub_0_r. apply substring_whole.
Qed.

Lemma TrimPrefix_slash_eq p x :
  HasPrefix x "/" = false ->
  (TrimPrefix p "/" = x <-> p = x \/ p = "/" +:+ x).
Proof.
  intros Hx. rewrite TrimPrefix_slash.
  change ("/" +:+ x) with (String "/" x).
  destruct p as [|c p'].
  - split; [auto | intros [H | H]; [auto | discriminate H]].
  - destruct (Ascii.eqb_spec c "/") as [-> | Hne].
    + split; [intros ->; right; reflexivity |].
      intros [<- | H]; [| injection H as H; exact H].
      simpl in Hx. rewrite HasPrefix_empty in Hx. discriminate Hx.
    + split; [auto |]. intros [H | H]; [exact H | injection H as H _; congruence].
Qed.

Lemma HasPrefix_slash c s : HasPrefix (String c s) "/" = Ascii.eqb c "/".
Proof.
  change (HasPrefix (String c s) "/") with (Ascii.eqb "/" c && HasPrefix s "").
  rewrite HasPrefix_empty, andb_true_r. apply Ascii.eqb_sym.
Qed.

Lemma identifier_no_leading_slash s :
  mysqlIdentifierRE s = true -> HasPrefix s "/" = false.
Proof.
  intros H. apply identifier_bytes in H as [Hne Hall].
  destruct s as [|c s]; [congruence |].
  rewrite HasPrefix_slash.
  change (all_bytes ident_byte (String c s)) with (ident_byte c && all_bytes ident_byte s) in Hall.
  apply andb_true_iff in Hall as [Hc _]. apply ident_byte_not_slash in Hc.
  unfold not_slash in Hc. apply negb_true_iff in Hc. exact Hc.
Qed.

Lemma identifier_not_slash s :
  mysqlIdentifierRE s = true -> all_bytes not_slash s = true.
Proof.
  intros H. apply identifier_bytes in H as [_ Hall].
  eapply all_bytes_impl; [apply ident_byte_not_slash | exact Hall].
Qed.

(** X13: the paths that resolve are those made of the identifiers joined by
    one slash, with or without one leading slash: nothing else gives the
    segments of a table list or of a table description, and only the
    empty path and the single slash give no segment. *)
Theorem resolved_paths u db table :
  mysqlIdentifierRE db = true ->
  mysqlIdentifierRE table = true ->
  (path_parts u = [] <-> Path u = "" \/ Path u = "/") /\
  (path_parts u = [db] <-> Path u = db \/ Path u = "/" +:+ db) /\
  (path_parts u = [db; table] <->
   Path u = db +:+ "/" +:+ table \/ Path u = "/" +:+ db +:+ "/" +:+ table).
Proof.
  intros Hdb Htable.
  pose proof (identifier_bytes db Hdb) as [Hdbne _].
  pose proof (identifier_not_slash db Hdb) as Hdbs.
  pose proof (identifier_not_slash table Htable) as Hts.
  assert (forall t parts, parts <> [] ->
            ((if negb (t =? "")%string then Split_byte t "/" else []) = parts <->
             t <> "" /\ Split_byte t "/" = parts)) as Hparts.
  { intros t parts Hnn. destruct (String.eqb_spec t "") as [-> | Hne]; simpl.
    - split; [intros H; congruence | intros [H _]; congruence].
    - tauto. }
  unfold path_parts. split; [| split].
  - rewrite <- (TrimPrefix_slash_eq (Path u) "") by reflexivity.
    destruct (String.eqb_spec (TrimPrefix (Path u) "/") "") as [E | E]; simpl.
    + tauto.
    + split; [intros H; destruct (Split_byte_not_nil _ _ H) | congruence].
  - rewrite <- (TrimPrefix_slash_eq (Path u) db) by (apply identifier_no_leading_slash, Hdb).
    rewrite Hparts by discriminate. split.
    + intros [_ H]. rewrite <- (Split_byte_join (TrimPrefix (Path u) "/") "/"), H. reflexivity.
    + intros ->. split; [exact Hdbne | apply Split_byte_whole, Hdbs].
  - rewrite <- (TrimPrefix_slash_eq (Path u) (db +:+ "/" +:+ table)).
    2: { destruct db as [|c db']; [congruence |]. rewrite append_cons.
         apply (identifier_no_leading_slash (String c db')) in Hdb.
         rewrite HasPrefix_slash in *. exact Hdb. }
    rewrite Hparts by discriminate. split.
    + intros [_ H]. rewrite <- (Split_byte_join (TrimPrefix (Path u) "/") "/"), H. reflexivity.
    + intros ->. split.
      * destruct db; [congruence | discriminate].
      * rewrite Split_byte_first by exact Hdbs. rewrite Split_byte_whole by exact Hts.
        reflexivity.
Qed.

(** X14: a canned query is one of the three statements, built around
    identifiers only: its text holds nothing but identifier bytes, spaces,
    backticks and a dot, and so no [;]. *)
Theorem canned_query_safe uri host parts query :
  resource_query uri host parts = Ok query ->
  all_bytes statement_byte query = true /\
  Contains query ";" = false /\
  ((host = "databases" /\ parts = [] /\ query = "SHOW DATABASES") \/
   (exists db, host = "tables" /\ parts = [db] /\ mysqlIdentifierRE db = true /\
               query = "SHOW TABLES FROM `" +:+ db +:+ "`") \/
   (exists db table, host = "schema" /\ parts = [db; table] /\
                     mysqlIdentifierRE db = true /\ mysqlIdentifierRE table = true /\
                     query = "DESCRIBE `" +:+ db +:+ "`.`" +:+ table +:+ "`")).
Proof.
  intros H.
  assert (forall s, mysqlIdentifierRE s = true -> all_bytes statement_byte s = true) as Hid.
  { intros s Hs. apply identifier_bytes in Hs as [_ Hs].
    eapply all_bytes_impl; [apply ident_byte_statement | exact Hs]. }
  assert (all_bytes statement_byte query = true /\
          ((host = "databases" /\ parts = [] /\ query = "SHOW DATABASES") \/
           (exists db, host = "tables" /\ parts = [db] /\ mysqlIdentifierRE db = true /\
                       query = "SHOW TABLES FROM `" +:+ db +:+ "`") \/
           (exists db table, host = "schema" /\ parts = [db; table] /\
                             mysqlIdentifierRE db = true /\ mysqlIdentifierRE table = true /\
                             query = "DESCRIBE `" +:+ db +:+ "`.`" +:+ table +:+ "`")))
    as [Hbytes Hshape].
  { unfold resource_query in H.
    destruct (String.eqb_spec host "databases") as [-> | _].
    { destruct parts; simpl in H; [| discriminate]. injection H as <-.
      split; [reflexivity | left; auto]. }
    destruct (String.eqb_spec host "tables") as [-> | _].
    { destruct parts as [|db [|? ?]]; simpl in H; try discriminate.
      destruct (mysqlIdentifierRE db) eqn:Hdb; simpl in H; [| discriminate].
      injection H as <-. split.
      - rewrite !all_bytes_app, (Hid db Hdb). reflexivity.
      - right; left. exists db. auto. }
    destruct (String.eqb_spec host "schema") as [-> | _]; [| discriminate].
    destruct parts as [|db [|table [|? ?]]]; simpl in H; try discriminate.
    destruct (mysqlIdentifierRE db) eqn:Hdb, (mysqlIdentifierRE table) eqn:Ht;
      simpl in H; try discriminate.
    injection H as <-. split.
    - rewrite !all_bytes_app, (Hid db Hdb), (Hid table Ht). reflexivity.
    - right; right. exists db, table. auto. }
  split; [exact Hbytes |]. split; [| exact Hshape].
  eapply Contains_byte_false; [exact Hbytes | reflexivity].
Qed.

(** *** The classifier and the deny list *)

Section ClassifierOrder.
Context `{U : Unicode} `{G : sqlparser.Grammar}.

(** X15: an ASCII text that holds a [;] anywhere, as it is written, is
    rejected, whatever the deny list and whatever the text parses to. *)
Theorem raw_semicolon_rejected query deny :
  all_bytes is_ascii_byte query = true ->
  Contains query ";" = true ->
  isReadOnlyQuery query deny = false.
Proof.
  intros Hascii Hsemi.
  assert (Contains (TrimSpace (ToLower query)) ";" = true) as Hn
    by (eapply normalized_keeps_fragment; eauto; reflexivity).
  unfold isReadOnlyQuery. rewrite Hn.
  destruct (_ =? _)%string; reflexivity.
Qed.

(** X16: the verdict depends on the deny list through its non-empty entries
    alone, and a longer list only rejects more: a text admitted under a
    list is admitted under every list whose non-empty entries are among
    those of the first. *)
Theorem deny_list_only_narrows query deny1 deny2 :
  (forall fragment, In fragment (elems deny1) -> fragment <> "" ->
                    In fragment (elems deny2)) ->
  isReadOnlyQuery query deny2 = true ->
  isReadOnlyQuery query deny1 = true.
Proof.
  intros Hsub. unfold isReadOnlyQuery.
  destruct (_ =? _)%string; [discriminate |].
  destruct (Contains _ ";"); [discriminate |].
  destruct (deny_loop _ (elems deny2)) eqn:H2; [discriminate |].
  assert (deny_loop (TrimSpace (ToLower query)) (elems deny1) = false) as ->;
    [| intros H; exact H].
  apply deny_loop_false. intros f Hin Hne.
  rewrite deny_loop_false in H2. apply H2; auto.
Qed.

End ClassifierOrder.

(** *** A resource read, from the locator to the answer *)

Section ResourceReads.
Context `{U : Unicode} `{G : sqlparser.Grammar} `{N : NetURL} `{J : JSON}.

Lemma serve_query_run h uri query tr :
  serve_query h uri query tr
  = (match fst (runQueryForResource h query tr) with
     | (_, Some err) => Err err
     | (out, None) =>
         match json_Marshal out with
         | Err err => Err err
         | Ok encoded =>
             Ok {| Contents := [ {| URI := uri;
                                    MIMEType := "application/json";
                                    Text := encoded |} ] |}
         end
     end,
     snd (runQueryForResource h query tr)).
Proof.
  unfold serve_query, bind, ret.
  destruct (runQueryForResource h query tr) as [[out [err |]] tr']; cbn [fst snd];
    [reflexivity |].
  destruct (json_Marshal out); reflexivity.
Qed.

Lemma readResource_cases h uri tr :
  (snd (readResource h uri tr) = tr /\
   exists err, fst (readResource h uri tr) = Err err /\
               (url_Parse uri = Err err \/ err = ResourceNotFoundError uri)) \/
  (exists query, resolves uri query /\
                 readResource h uri tr = serve_query h uri query tr).
Proof.
  destruct (url_Parse uri) as [u | err] eqn:HP.
  2: { left. rewrite (readResource_parse_error h uri err tr HP). eauto. }
  destruct (String.eqb_spec (ToLower (Scheme u)) "mysql") as [HS | HS].
  2: { left. unfold readResource. rewrite HP.
       apply String.eqb_neq in HS. rewrite HS. simpl. eauto. }
  rewrite (readResource_parsed h uri u tr HP HS).
  destruct (resource_query uri (ToLower (Host u)) (path_parts u)) as [query | err] eqn:HQ.
  - right. exists query. split; [exists u; auto | reflexivity].
  - left. apply resource_query_not_found in HQ as ->. simpl. eauto.
Qed.

(** X17: whatever the locator, a statement the router sends to the database
    is the canned statement the locator resolves to, and was admitted by
    the classifier.  An answer is the JSON text of the output of a
    committed run of that statement, as one content item under the
    locator; an error is the parse error or the not-found error with no
    database call made, the error text of a failed run, or the error of
    the encoder. *)
Theorem resource_read_outcome h uri tr :
  (forall q, In (sql.Tx_QueryContext q) (snd (readResource h uri [])) ->
             resolves uri q /\ isReadOnlyQuery q (denySubstrings h) = true) /\
  (forall res,
     fst (readResource h uri tr) = Ok res ->
     exists query rows columns encoded,
       resolves uri query /\
       opened h query rows columns /\ streamed h rows columns /\
       sql.Commit (db h) = None /\
       json_Marshal
         {| Columns := declared columns;
            Rows := mk_slice (map stored (accepted h rows));
            RowCount := Z.of_nat (length (accepted h rows));
            Truncated := Nat.ltb (Z.to_nat (maxRows (config h)))
                                 (length (sql.pending rows)) |} = Ok encoded /\
       res = {| Contents := [ {| URI := uri;
                                 MIMEType := "application/json";
                                 Text := encoded |} ] |}) /\
  (forall err,
     fst (readResource h uri tr) = Err err ->
     (snd (readResource h uri tr) = tr /\
      (url_Parse uri = Err err \/ err = ResourceNotFoundError uri)) \/
     (exists query text,
        resolves uri query /\ Failure h query text /\ err = errorString text) \/
     (exists output, json_Marshal output = Err err)).
Proof.
  split; [| split].
  - intros q Hin.
    destruct (readResource_cases h uri []) as [[Htr _] | (query & Hres & Hrun)].
    + rewrite Htr in Hin. destruct Hin.
    + rewrite Hrun, serve_query_run in Hin. cbn [snd] in Hin.
      rewrite resource_path_trace, runQuery_calls in Hin.
      apply calls_query_text in Hin as [-> Hadm]. split; assumption.
  - intros res Hok.
    destruct (readResource_cases h uri tr) as [[_ (err & He & _)] | (query & Hres & Hrun)];
      [congruence |].
    rewrite Hrun, serve_query_run in Hok. cbn [fst] in Hok.
    destruct (failure_or_success h query) as [[text HF] | (rows & columns & Ho & Hs & Hc)].
    { rewrite (runQueryForResource_failure h query text tr HF) in Hok. discriminate. }
    destruct (runQuery_success h {| Query := query |} rows columns tr Ho Hs Hc)
      as (result & Hflag & _ & Hrq).
    destruct (resource_path_mirrors_tool h query tr) as (result' & output & text & Hrq' & _ & Hrr).
    rewrite Hrq in Hrq'. injection Hrq' as <- <-.
    rewrite Hflag in Hrr. rewrite Hrr in Hok.
    destruct (json_Marshal _) as [encoded |] eqn:Hj; [| discriminate].
    injection Hok as <-. exists query, rows, columns, encoded. auto 10.
  - intros err Herr.
    destruct (readResource_cases h uri tr) as [[Htr (err' & He & Hwhy)] | (query & Hres & Hrun)].
    { left. rewrite He in Herr. injection Herr as <-. auto. }
    right. rewrite Hrun, serve_query_run in Herr. cbn [fst] in Herr.
    destruct (failure_or_success h query) as [[text HF] | (rows & columns & Ho & Hs & Hc)].
    { rewrite (runQueryForResource_failure h query text tr HF) in Herr.
      injection Herr as <-. left. eauto. }
    destruct (runQuery_success h {| Query := query |} rows columns tr Ho Hs Hc)
      as (result & Hflag & _ & Hrq).
    destruct (resource_path_mirrors_tool h query tr) as (result' & output & text & Hrq' & _ & Hrr).
    rewrite Hrq in Hrq'. injection Hrq' as <- <-.
    rewrite Hflag in Hrr. rewrite Hrr in Herr.
    destruct (json_Marshal _) as [encoded | e] eqn:Hj; [discriminate |].
    injection Herr as <-. right. eauto.
Qed.

End ResourceReads.

(** *** Start-up *)

Section MainFacts.
Context `{U : Unicode} `{T : TOML} `{P : Process}.



End MainFacts.

(** *** The command-line client *)

Lemma client_log_fold (content : list client.Content) : forall init,
  fold_left (fun log c => log ++ [client.log_content c]) content init
  = init ++ map client.log_content content.
Proof.
  induction content as [|c content IH]; intros init; simpl.
  - rewrite app_nil_r. reflexivity.
  - rewrite IH, <- app_assoc. reflexivity.
Qed.

(** What [report] logs is made of [LoggerPrint] calls only. *)
Lemma client_report_prints answer :
  Forall (fun e => client.is_Print e = true) (snd (client.report answer)).
Proof.
  unfold client.report.
  destruct answer as [res | err]; [| constructor].
  destruct (client.IsError res).
  - destruct (client.StructuredContent res) as [[b | e] |];
      try destruct (client.first_text _); constructor.
  - destruct (client.StructuredContent res) as [[b | e] |]; cbn [snd];
      try (repeat constructor).
    rewrite client_log_fold. simpl. apply Forall_map, List.Forall_forall.
    intros c _. destruct c as [t | n [b | e]]; reflexivity.
Qed.

(** X19: the client connects only for flags that parse to a non-empty
    query, calls the tool [mysql_query] at most once with that query as
    its only argument, and closes the session exactly when the connection
    succeeded, as its last call, whichever way the call of the tool
    ended. *)
Theorem client_session_discipline env args :
  let log := snd (client.run env args) in
  ((forall query, client.flag_query env args = Ok query -> query = "") -> log = []) /\
  (In client.Close_call log <->
   exists query session,
     client.flag_query env args = Ok query /\ query <> "" /\
     client.Connect env = Ok session) /\
  (length (List.filter client.is_Close log) <= 1)%nat /\
  (In client.Close_call log -> last log = Some client.Close_call) /\
  (length (List.filter client.is_CallTool log) <= 1)%nat /\
  (forall params,
     In (client.CallTool_call params) log ->
     exists query,
       client.flag_query env args = Ok query /\ query <> "" /\
       params = {| client.Name := "mysql_query";
                   client.Arguments := [("query", query)] |}).
Proof.
  cbv zeta. unfold client.run.
  destruct (client.flag_query env args) as [query | err] eqn:Hflag.
  2: { cbn [snd]. split; [reflexivity |]. split; [split; [intros [] |] |].
       - intros (? & ? & ? & _). discriminate.
       - repeat split; try (simpl; lia); first [intros [] | intros ? []]. }
  destruct (String.eqb_spec query "") as [-> | Hne].
  { cbn [snd]. split; [reflexivity |]. split; [split; [intros [] |] |].
    - intros (? & ? & [= <-] & ? & _). congruence.
    - repeat split; try (simpl; lia); first [intros [] | intros ? []]. }
  destruct (client.Connect env) as [session | err] eqn:Hconn.
  2: { cbn [snd]. repeat split; try (simpl; lia).
       - intros H. specialize (H query eq_refl). contradiction.
       - simpl. intuition discriminate.
       - intros (? & ? & _ & _ & ?). discriminate.
       - simpl. intuition discriminate.
       - simpl. intuition discriminate. }
  pose proof (client_report_prints
                (client.CallTool session
                   {| client.Name := "mysql_query";
                      client.Arguments := [("query", query)] |})) as HP.
  destruct (client.report _) as [err log]. cbn [snd] in *.
  assert (List.filter client.is_Close log = [] /\ List.filter client.is_CallTool log = [])
    as [HC HT].
  { clear -HP. induction HP as [|e l He _ [IH1 IH2]]; [auto |].
    destruct e; try discriminate He. simpl. auto. }
  repeat split.
  - intros H. specialize (H query eq_refl). contradiction.
  - intros _. eauto.
  - intros _. simpl. rewrite in_app_iff. simpl. auto.
  - simpl. rewrite List.filter_app, HC. simpl. lia.
  - intros _. rewrite app_assoc. apply last_snoc.
  - simpl. rewrite List.filter_app, HT. simpl. lia.
  - intros params H. simpl in H. destruct H as [H | [H | H]]; [discriminate | |].
    + injection H as <-. eauto.
    + exfalso. apply in_app_or in H as [H | [H | []]]; [| discriminate].
      rewrite List.Forall_forall in HP. specialize (HP _ H). discriminate HP.
Qed.

Lemma client_first_text_skips others text rest :
  Forall (fun c => client.is_TextContent c = false) others ->
  client.first_text (others ++ client.TextContent text :: rest) = Some text.
Proof.
  induction 1 as [|c others Hc _ IH]; [reflexivity |].
  destruct c; [discriminate Hc | exact IH].
Qed.

Lemma client_first_text_none content :
  Forall (fun c => client.is_TextContent c = false) content ->
  client.first_text content = None.
Proof.
  induction 1 as [|c others Hc _ IH]; [reflexivity |].
  destruct c; [discriminate Hc | exact IH].
Qed.

Lemma client_filter_prints (log : list client.Event) :
  Forall (fun e => client.is_Print e = true) log ->
  List.filter client.is_Print log = log.
Proof.
  induction 1 as [|e l He _ IH]; [reflexivity |].
  simpl. rewrite He, IH. reflexivity.
Qed.

(** X20: when the tool answers with its failure flag set the client
    returns an error whose text starts with [tool failed] and prints
    nothing.  The text carries the structured content when that can be
    marshalled, whatever the content items are; otherwise the text of the
    first text item, whatever comes before or after it; and nothing more
    when there is no text item. *)
Theorem client_tool_failure_reported env args query session res
  (Hflag : client.flag_query env args = Ok query)
  (Hquery : query <> "")
  (Hconn : client.Connect env = Ok session)
  (Hcall : client.CallTool session
             {| client.Name := "mysql_query";
                client.Arguments := [("query", query)] |} = Ok res)
  (Hfail : client.IsError res = true) :
  exists text,
    fst (client.run env args) = Some (errorString text) /\
    HasPrefix text "tool failed" = true /\
    List.filter client.is_Print (snd (client.run env args)) = [] /\
    (forall b, client.StructuredContent res = Some (Ok b) ->
               text = "tool failed: " +:+ b) /\
    ((forall b, client.StructuredContent res <> Some (Ok b)) ->
     (forall others t rest,
        client.Content_ res = others ++ client.TextContent t :: rest ->
        Forall (fun c => client.is_TextContent c = false) others ->
        text = "tool failed: " +:+ t) /\
     (Forall (fun c => client.is_TextContent c = false) (client.Content_ res) ->
      text = "tool failed")).
Proof.
  unfold client.run. rewrite Hflag.
  destruct (String.eqb_spec query "") as [He | _]; [contradiction |].
  rewrite Hconn, Hcall. unfold client.report. rewrite Hfail.
  assert (forall text,
            client.first_text (client.Content_ res) = Some text ->
            (forall others t rest,
               client.Content_ res = others ++ client.TextContent t :: rest ->
               Forall (fun c => client.is_TextContent c = false) others ->
               "tool failed: " +:+ text = "tool failed: " +:+ t) /\
            (Forall (fun c => client.is_TextContent c = false) (client.Content_ res) ->
             "tool failed: " +:+ text = "tool failed")) as Htext.
  { intros text Hft. split.
    - intros others t rest Hc Ho.
      rewrite Hc, (client_first_text_skips _ _ _ Ho) in Hft.
      injection Hft as <-. reflexivity.
    - intros Hc. rewrite (client_first_text_none _ Hc) in Hft. discriminate. }
  assert (client.first_text (client.Content_ res) = None ->
          forall others t rest,
            client.Content_ res = others ++ client.TextContent t :: rest ->
            Forall (fun c => client.is_TextContent c = false) others ->
            "tool failed" = "tool failed: " +:+ t) as Hbare.
  { intros Hft others t rest Hc Ho.
    rewrite Hc, (client_first_text_skips _ _ _ Ho) in Hft. discriminate. }
  destruct (client.StructuredContent res) as [[b | e] |] eqn:Hsc.
  - exists ("tool failed: " +:+ b).
    split; [reflexivity |]. split; [reflexivity |]. split; [reflexivity |].
    split.
    + intros b' [= <-]. reflexivity.
    + intros Hn. destruct (Hn b eq_refl).
  - destruct (client.first_text (client.Content_ res)) as [text |] eqn:Hft.
    + exists ("tool failed: " +:+ text).
      split; [reflexivity |]. split; [reflexivity |]. split; [reflexivity |].
      split; [discriminate |]. intros _. apply Htext. reflexivity.
    + exists "tool failed".
      split; [reflexivity |]. split; [reflexivity |]. split; [reflexivity |].
      split; [discriminate |]. intros _. split; [apply Hbare; reflexivity | reflexivity].
  - destruct (client.first_text (client.Content_ res)) as [text |] eqn:Hft.
    + exists ("tool failed: " +:+ text).
      split; [reflexivity |]. split; [reflexivity |]. split; [reflexivity |].
      split; [discriminate |]. intros _. apply Htext. reflexivity.
    + exists "tool failed".
      split; [reflexivity |]. split; [reflexivity |]. split; [reflexivity |].
      split; [discriminate |]. intros _. split; [apply Hbare; reflexivity | reflexivity].
Qed.

(** X21: the client returns no error exactly when the flags parse to a
    non-empty query, the connection and the call succeed, the failure flag
    is not set and the structured content, if any, can be marshalled.  It
    prints nothing when it returns an error; on success it prints the
    structured content alone when there is one, and otherwise one line for
    each content item, in their order. *)
Theorem client_prints_only_on_success env args :
  let out := client.run env args in
  (fst out = None <->
   exists query session res,
     client.flag_query env args = Ok query /\ query <> "" /\
     client.Connect env = Ok session /\
     client.CallTool session
       {| client.Name := "mysql_query";
          client.Arguments := [("query", query)] |} = Ok res /\
     client.IsError res = false /\
     (forall e, client.StructuredContent res <> Some (Err e)) /\
     List.filter client.is_Print (snd out)
     = match client.StructuredContent res with
       | Some (Ok b) => [client.LoggerPrint b]
       | _ => map client.log_content (client.Content_ res)
       end) /\
  (fst out <> None -> List.filter client.is_Print (snd out) = []).
Proof.
  cbv zeta. unfold client.run.
  destruct (client.flag_query env args) as [query | err] eqn:Hflag.
  2: { split; [split; [discriminate |] | reflexivity].
       intros (? & ? & ? & ? & _). discriminate. }
  destruct (String.eqb_spec query "") as [-> | Hne].
  { split; [split; [discriminate |] | reflexivity].
    intros (? & ? & ? & [= <-] & ? & _). congruence. }
  destruct (client.Connect env) as [session | err] eqn:Hconn.
  2: { split; [split; [discriminate |] | reflexivity].
       intros (? & ? & ? & _ & _ & ? & _). discriminate. }
  pose proof (client_report_prints
                (client.CallTool session
                   {| client.Name := "mysql_query";
                      client.Arguments := [("query", query)] |})) as HP.
  unfold client.report in *.
  destruct (client.CallTool session _) as [res | err] eqn:Hcall.
  2: { split; [split; [discriminate |] | reflexivity].
       intros (? & ? & ? & [= <-] & _ & [= <-] & ? & _). congruence. }
  assert (forall err log,
            Forall (fun e => client.is_Print e = true) log ->
            List.filter client.is_Print
              (snd (err : option error,
                    [client.Connect_call;
                     client.CallTool_call
                       {| client.Name := "mysql_query";
                          client.Arguments := [("query", query)] |}]
                    ++ log ++ [client.Close_call])) = log) as Hlog.
  { intros err log H. cbn [snd]. simpl. rewrite List.filter_app. simpl.
    rewrite app_nil_r. apply client_filter_prints, H. }
  destruct (client.IsError res) eqn:Hflagged.
  { assert (forall text,
              (fst (Some (errorString text),
                    [client.Connect_call;
                     client.CallTool_call
                       {| client.Name := "mysql_query";
                          client.Arguments := [("query", query)] |}]
                    ++ [] ++ [client.Close_call]) = None <->
               exists query0 session0 res0,
                 Ok query = Ok query0 /\ query0 <> "" /\
                 Ok session = Ok session0 /\
                 client.CallTool session0
                   {| client.Name := "mysql_query";
                      client.Arguments := [("query", query0)] |} = Ok res0 /\
                 client.IsError res0 = false /\
                 (forall e, client.StructuredContent res0 <> Some (Err e)) /\
                 List.filter client.is_Print
                   (snd (Some (errorString text),
                         [client.Connect_call;
                          client.CallTool_call
                            {| client.Name := "mysql_query";
                               client.Arguments := [("query", query)] |}]
                         ++ [] ++ [client.Close_call]))
                 = match client.StructuredContent res0 with
                   | Some (Ok b) => [client.LoggerPrint b]
                   | _ => map client.log_content (client.Content_ res0)
                   end)) as Hno.
    { intros text. split; [discriminate |].
      intros (? & ? & ? & [= <-] & _ & [= <-] & Hc & Hf & _).
      rewrite Hcall in Hc. injection Hc as <-. congruence. }
    destruct (client.StructuredContent res) as [[b | e] |];
      try destruct (client.first_text _); (split; [apply Hno | reflexivity]). }
  destruct (client.StructuredContent res) as [[b | e] |] eqn:Hsc.
  - split; [| intros H; destruct (H eq_refl)].
    split; [intros _ | reflexivity].
    exists query, session, res. rewrite Hsc.
    repeat split; try assumption; discriminate.
  - split; [| reflexivity]. split; [discriminate |].
    intros (? & ? & ? & [= <-] & _ & [= <-] & Hc & _ & Hm & _).
    rewrite Hcall in Hc. injection Hc as <-. destruct (Hm e Hsc).
  - split; [| intros H; destruct (H eq_refl)].
    split; [intros _ | reflexivity].
    exists query, session, res. rewrite Hsc.
    repeat split; try assumption; try discriminate.
    rewrite Hlog by exact HP. rewrite client_log_fold. reflexivity.
Qed.

(** *** Further properties on examples *)

Lemma returned_rows_are_a_committed_prefix_witness :
  let h := users_handler 2 in
  let output :=
    snd (fst (fst (@runQuery ascii_only keyword_grammar h
                     {| Query := "SELECT * FROM users" |} []))) in
  exists rows columns,
    @opened ascii_only keyword_grammar h "SELECT * FROM users" rows columns /\
    streamed h rows columns /\
    sql.Commit (db h) = None /\
    Columns output = declared columns /\
    elems (Rows output)
    = map stored (firstn (Z.to_nat (maxRows (config h))) (sql.pending rows)) /\
    RowCount output = Z.min (maxRows (config h)) (Z.of_nat (length (sql.pending rows))) /\
    (Truncated output = true <->
     maxRows (config h) < Z.of_nat (length (sql.pending rows))).
Proof.
  refine (@returned_rows_are_a_committed_prefix ascii_only keyword_grammar
            (users_handler 2) {| Query := "SELECT * FROM users" |} [] _ _ None _ _);
    reflexivity.
Defined.

Lemma returned_values_are_normalized_witness :
  Forall (fun row => Forall transport_safe row /\ map normalizeValue row = row)
    [[int64_any 1; string_any "alice"];
     [int64_any 2; string_any "bob"];
     [int64_any 3; nil_any]].
Proof.
  apply (@returned_values_are_normalized ascii_only keyword_grammar
           (users_handler 0) {| Query := "SELECT * FROM users" |} []
           (fst (fst (fst (@runQuery ascii_only keyword_grammar (users_handler 0)
                             {| Query := "SELECT * FROM users" |} []))))
           {| Columns := mk_slice ["id"; "name"];
              Rows := mk_slice [[int64_any 1; string_any "alice"];
                                [int64_any 2; string_any "bob"];
                                [int64_any 3; nil_any]];
              RowCount := 3;
              Truncated := false |}
           None).
  reflexivity.
Defined.

Lemma resolved_paths_witness :
  let u := {| Scheme := "mysql"; Host := "schema"; Path := "/my_db/users" |} in
  (path_parts u = [] <-> Path u = "" \/ Path u = "/") /\
  (path_parts u = ["my_db"] <-> Path u = "my_db" \/ Path u = "/" +:+ "my_db") /\
  (path_parts u = ["my_db"; "users"] <->
   Path u = "my_db" +:+ "/" +:+ "users" \/ Path u = "/" +:+ "my_db" +:+ "/" +:+ "users").
Proof.
  apply (resolved_paths {| Scheme := "mysql"; Host := "schema"; Path := "/my_db/users" |}
           "my_db" "users"); reflexivity.
Defined.

Lemma canned_query_safe_witness :
  all_bytes statement_byte "SHOW TABLES FROM `my_db`" = true /\
  Contains "SHOW TABLES FROM `my_db`" ";" = false /\
  (("tables" = "databases" /\ ["my_db"] = [] /\
    "SHOW TABLES FROM `my_db`" = "SHOW DATABASES") \/
   (exists db, "tables" = "tables" /\ ["my_db"] = [db] /\ mysqlIdentifierRE db = true /\
               "SHOW TABLES FROM `my_db`" = "SHOW TABLES FROM `" +:+ db +:+ "`") \/
   (exists db table, "tables" = "schema" /\ ["my_db"] = [db; table] /\
                     mysqlIdentifierRE db = true /\ mysqlIdentifierRE table = true /\
                     "SHOW TABLES FROM `my_db`"
                     = "DESCRIBE `" +:+ db +:+ "`.`" +:+ table +:+ "`")).
Proof.
  apply (canned_query_safe "mysql://tables/my_db" "tables" ["my_db"]
           "SHOW TABLES FROM `my_db`").
  reflexivity.
Defined.

Lemma raw_semicolon_rejected_witness :
  @isReadOnlyQuery ascii_only keyword_grammar "SELECT 1; DROP TABLE users" nil_slice = false.
Proof.
  apply (@raw_semicolon_rejected ascii_only keyword_grammar
           "SELECT 1; DROP TABLE users" nil_slice); reflexivity.
Defined.

Lemma deny_list_only_narrows_witness :
  @isReadOnlyQuery ascii_only keyword_grammar "SELECT * FROM users"
    (mk_slice [""; "for update"]) = true.
Proof.
  apply (@deny_list_only_narrows ascii_only keyword_grammar "SELECT * FROM users"
           (mk_slice [""; "for update"]) (mk_slice ["into outfile"; "for update"])).
  - simpl. intros fragment [<- | [<- | []]] Hne; [destruct (Hne eq_refl) | auto].
  - reflexivity.
Defined.

Lemma client_tool_failure_reported_witness :
  exists text,
    fst (client.run (test_env refusing_session) ["-query"; "DELETE FROM users"])
    = Some (errorString text) /\
    text = "tool failed: only read-only queries are allowed".
Proof.
  destruct (client_tool_failure_reported (test_env refusing_session)
              ["-query"; "DELETE FROM users"] "DELETE FROM users" refusing_session
              {| client.Content_ :=
                   [client.OtherContent "*mcp.ImageContent" (Ok "{}");
                    client.TextContent "only read-only queries are allowed";
                    client.TextContent "try again"];
                 client.StructuredContent := None;
                 client.IsError := true |}
              eq_refl ltac:(discriminate) eq_refl eq_refl eq_refl)
    as (text & Hrun & _ & _ & _ & Hrest).
  exists text. split; [exact Hrun |].
  refine (proj1 (Hrest _) [client.OtherContent "*mcp.ImageContent" (Ok "{}")]
            "only read-only queries are allowed" [client.TextContent "try again"]
            eq_refl _).
  - discriminate.
  - repeat constructor.
Defined.
